(** * Google Play Store Analytics Dashboard: the data pipeline

    A shallow embedding of the data-cleaning and statistics code of the
    dashboard ([utils/dataProcessor.js], [utils/statisticalAnalysis.js],
    [utils/analytics.js], [utils/constants.js]) and the properties of it that
    the specification states.

    JavaScript numbers are IEEE 754 doubles and are modelled by Rocq's
    primitive [float]s, so that [NaN], the infinities, the signed zeros and
    every rounding are the ones the program computes with.  Strings are
    sequences of code units below 256 ([string]).  A function that can raise
    returns a [result].

    The program leans on its run time and on two libraries.  [Js] models
    what it uses of the language ([parseFloat], [parseInt], the conversion
    of a number to a string, truthiness, optional chaining), [Lodash] the
    functions of lodash and of the built-in objects ([groupBy], [maxBy],
    [Object.values], [sort], [Math.min]), and [MathJS] the functions of
    mathjs, each as the library computes it on arrays of plain numbers. *)

From Stdlib Require Import ZArith List String Ascii Bool Lia Floats Permutation DecimalString.
Import ListNotations.

(** ** The language run time *)

Module Js.

(** *** Numbers *)

Definition number := float.

Definition NaN : number := nan.
Definition Infinity : number := infinity.

(** [isNaN] on a number. *)
Definition isNaN (x : number) : bool := is_nan x.

(** Truthiness of a number: everything except [NaN], [+0] and [-0]. *)
Definition truthy_num (x : number) : bool := negb (is_nan x || is_zero x).

(** The relational operators on numbers. A comparison with [NaN] is false. *)
Definition lt (x y : number) : bool := (x <? y)%float.
Definition le (x y : number) : bool := (x <=? y)%float.
Definition gt (x y : number) : bool := (y <? x)%float.
Definition ge (x y : number) : bool := (y <=? x)%float.
(** [===] on numbers. *)
Definition eq (x y : number) : bool := (x =? y)%float.

(** [x || y] where both are numbers. *)
Definition or_num (x y : number) : number := if truthy_num x then x else y.

(** The number that an array length or a count is. *)
Definition of_nat (n : nat) : number := of_uint63 (Uint63.of_Z (Z.of_nat n)).

(** Quotient, remainder and divisor of [n / (d * 2 ^ e)]. *)
Definition scaled_quotient (n d e : Z) : Z * Z * Z :=
  let num := if (0 <=? e)%Z then n else (n * 2 ^ (- e))%Z in
  let den := if (0 <=? e)%Z then (d * 2 ^ e)%Z else d in
  (num / den, num mod den, den)%Z.

(** The double nearest to the rational [n / d] (ties to even), for
    [0 <= n] and [0 < d]: the rounding that reading a numeric literal does. *)
Definition round_ratio (n d : Z) : number :=
  if (n =? 0)%Z then zero else
  let e1 := (Z.log2 n - Z.log2 d - 52)%Z in
  let '(q1, _, _) := scaled_quotient n d e1 in
  let e2 := if (q1 <? 2 ^ 52)%Z then (e1 - 1)%Z else e1 in
  let e := Z.max e2 (-1074) in
  let '(q, r, den) := scaled_quotient n d e in
  let up := ((den <? 2 * r) || ((den =? 2 * r) && Z.odd q))%Z in
  let m := if up then (q + 1)%Z else q in
  Z.ldexp (of_uint63 (Uint63.of_Z m)) e.

Definition signed (neg : bool) (x : number) : number :=
  if neg then (- x)%float else x.

(** *** Strings *)

Definition code (c : ascii) : nat := nat_of_ascii c.

Definition is_digit (c : ascii) : bool :=
  (48 <=? code c)%nat && (code c <=? 57)%nat.

Definition digit_value (c : ascii) : Z := (Z.of_nat (code c) - 48)%Z.

(** White space and line terminators, among the code units below 256. *)
Definition is_space (c : ascii) : bool :=
  let n := code c in
  ((9 <=? n)%nat && (n <=? 13)%nat) || (n =? 32)%nat || (n =? 160)%nat.

Definition lower_char (c : ascii) : ascii :=
  let n := code c in
  if ((65 <=? n)%nat && (n <=? 90)%nat)
     || ((192 <=? n)%nat && (n <=? 222)%nat && negb (n =? 215)%nat)
  then ascii_of_nat (n + 32) else c.

Fixpoint toLowerCase (s : string) : string :=
  match s with
  | EmptyString => EmptyString
  | String c r => String (lower_char c) (toLowerCase r)
  end.

Fixpoint trimStart (s : string) : string :=
  match s with
  | EmptyString => EmptyString
  | String c r => if is_space c then trimStart r else s
  end.

Fixpoint trimEnd (s : string) : string :=
  match s with
  | EmptyString => EmptyString
  | String c r =>
      match trimEnd r with
      | EmptyString => if is_space c then EmptyString else String c EmptyString
      | r' => String c r'
      end
  end.

Definition trim (s : string) : string := trimEnd (trimStart s).

Fixpoint drop (n : nat) (s : string) : string :=
  match n, s with
  | O, _ => s
  | S _, EmptyString => EmptyString
  | S k, String _ r => drop k r
  end.

(** [s.includes(sub)] *)
Fixpoint includes (s sub : string) : bool :=
  prefix sub s ||
  match s with
  | EmptyString => false
  | String _ r => includes r sub
  end.

(** [s.replace(pat, rep)] with a string pattern: the first occurrence only.
    ([rep] is taken literally; the program only passes the empty string.) *)
Fixpoint replace (pat rep s : string) : string :=
  if prefix pat s then rep ++ drop (String.length pat) s
  else match s with
       | EmptyString => EmptyString
       | String c r => String c (replace pat rep r)
       end.

(** [s.replace(/[...]/g, '')]: every code unit of the class is removed. *)
Fixpoint remove_all (cls : ascii -> bool) (s : string) : string :=
  match s with
  | EmptyString => EmptyString
  | String c r => if cls c then remove_all cls r else String c (remove_all cls r)
  end.

(** *** Reading numbers: [parseFloat] and [parseInt] *)

Fixpoint span_digits (s : string) : string * string :=
  match s with
  | EmptyString => (EmptyString, EmptyString)
  | String c r =>
      if is_digit c then let (d, t) := span_digits r in (String c d, t)
      else (EmptyString, s)
  end.

Fixpoint digits_value_from (acc : Z) (s : string) : Z :=
  match s with
  | EmptyString => acc
  | String c r => digits_value_from (10 * acc + digit_value c)%Z r
  end.

Definition digits_value (s : string) : Z := digits_value_from 0 s.

Definition is_empty (s : string) : bool :=
  match s with EmptyString => true | _ => false end.

(** An optional sign; [true] is minus. *)
Definition scan_sign (s : string) : bool * string :=
  match s with
  | String c r =>
      if Ascii.eqb c "+" then (false, r)
      else if Ascii.eqb c "-" then (true, r)
      else (false, s)
  | EmptyString => (false, s)
  end.

(** A decimal literal as read: sign, integer digits, fraction digits and an
    optional exponent; or a signed [Infinity]. *)
Inductive literal : Type :=
| LInfinity (neg : bool)
| LDecimal (neg : bool) (int_part frac_part : string) (exponent : option (bool * string)).

Definition is_exp_mark (c : ascii) : bool :=
  (code c =? 101)%nat || (code c =? 69)%nat.

Definition scan_exponent (s : string) : option (bool * string) * string :=
  match s with
  | String c r =>
      if is_exp_mark c then
        let (neg, r1) := scan_sign r in
        let (d, r2) := span_digits r1 in
        if is_empty d then (None, s) else (Some (neg, d), r2)
      else (None, s)
  | EmptyString => (None, s)
  end.

Definition scan_unsigned (neg : bool) (s : string) : option (literal * string) :=
  if prefix "Infinity" s then Some (LInfinity neg, drop 8 s) else
  let (ip, r1) := span_digits s in
  let no_fraction :=
    if is_empty ip then None
    else let (ex, r4) := scan_exponent r1 in Some (LDecimal neg ip EmptyString ex, r4) in
  match r1 with
  | String c r2 =>
      if Ascii.eqb c "." then
        let (fp, r3) := span_digits r2 in
        if is_empty ip && is_empty fp then None
        else let (ex, r4) := scan_exponent r3 in Some (LDecimal neg ip fp ex, r4)
      else no_fraction
  | EmptyString => no_fraction
  end.

(** The longest prefix that is a [StrDecimalLiteral], and what follows it. *)
Definition scan_literal (s : string) : option (literal * string) :=
  let (neg, r) := scan_sign s in scan_unsigned neg r.

Definition literal_value (l : literal) : number :=
  match l with
  | LInfinity neg => signed neg infinity
  | LDecimal neg ip fp ex =>
      let m := digits_value (ip ++ fp) in
      let e := (match ex with
                | None => 0
                | Some (eneg, d) => if eneg then - digits_value d else digits_value d
                end - Z.of_nat (String.length fp))%Z in
      signed neg (if (0 <=? e)%Z then round_ratio (m * 10 ^ e) 1
                  else round_ratio m (10 ^ (- e)))
  end.

Definition parseFloat_string (s : string) : number :=
  match scan_literal (trimStart s) with
  | Some (l, _) => literal_value l
  | None => NaN
  end.

Definition is_hex_digit (c : ascii) : bool :=
  let n := code c in
  is_digit c || ((97 <=? n)%nat && (n <=? 102)%nat) || ((65 <=? n)%nat && (n <=? 70)%nat).

Definition hex_value (c : ascii) : Z :=
  let n := code c in
  if is_digit c then digit_value c
  else if (97 <=? n)%nat then (Z.of_nat n - 87)%Z else (Z.of_nat n - 55)%Z.

Fixpoint hex_value_from (acc : option Z) (s : string) : option Z :=
  match s with
  | EmptyString => acc
  | String c r =>
      if is_hex_digit c
      then hex_value_from (Some (16 * match acc with Some a => a | None => 0 end + hex_value c)%Z) r
      else acc
  end.

Definition has_hex_prefix (s : string) : bool :=
  prefix "0x" s || prefix "0X" s.

(** [parseInt(s)] with no radix: leading white space, a sign, an optional
    [0x], then the longest run of digits of the radix. *)
Definition parseInt_string (s : string) : number :=
  let (neg, r) := scan_sign (trimStart s) in
  if has_hex_prefix r then
    match hex_value_from None (drop 2 r) with
    | Some v => signed neg (round_ratio v 1)
    | None => NaN
    end
  else
    let (d, _) := span_digits r in
    if is_empty d then NaN else signed neg (round_ratio (digits_value d) 1).

(** *** Writing numbers: [Number::toString] *)

(** A finite, non-zero double as an exact fraction of integers. *)
Definition exact_ratio (x : number) : Z * Z :=
  match Prim2SF x with
  | S754_finite _ m e =>
      if (0 <=? e)%Z then (Z.pos m * 2 ^ e, 1)%Z else (Z.pos m, 2 ^ (- e))%Z
  | _ => (0, 1)%Z
  end.

(** [n / d < 10 ^ k] *)
Definition below_pow10 (n d k : Z) : bool :=
  if (0 <=? k)%Z then (n <? d * 10 ^ k)%Z else (n * 10 ^ (- k) <? d)%Z.

Fixpoint first_exponent (fuel : nat) (n d k : Z) : Z :=
  match fuel with
  | O => k
  | S f => if below_pow10 n d k then k else first_exponent f n d (k + 1)%Z
  end.

(** The least [k] with [n / d < 10 ^ k]. *)
Definition decimal_exponent (n d : Z) : Z :=
  let est := ((Z.log2 n - Z.log2 d) * 30103 / 100000)%Z in
  first_exponent 8 n d (est - 2)%Z.

(** [s * 10 ^ e] as a fraction. *)
Definition scaled (s e : Z) : Z * Z :=
  if (0 <=? e)%Z then (s * 10 ^ e, 1)%Z else (s, 10 ^ (- e))%Z.

(** The digit strings [s] of [k] digits for which [s * 10 ^ (e - k)] reads
    back as [x], with their distance to [x = n / d]. *)
Definition candidates (x : number) (n d k e : Z) : list (Z * Z * (Z * Z)) :=
  let '(sn, sd) := scaled 1 (k - e) in
  let lo := ((n * sn) / (d * sd))%Z in
  flat_map (fun s =>
    let '(vn, vd) := scaled s (e - k) in
    if ((10 ^ (k - 1) <=? s) && (s <? 10 ^ k))%Z && eq (round_ratio vn vd) x
    then [(s, e, (Z.abs (vn * d - n * vd), vd * d))%Z] else [])
    [lo; (lo + 1)%Z].

Definition closer (a b : Z * Z * (Z * Z)) : Z * Z * (Z * Z) :=
  let '(_, _, (an, ad)) := a in
  let '(_, _, (bn, bd)) := b in
  if (bn * ad <? an * bd)%Z then b else a.

Fixpoint shortest_digits (fuel : nat) (x : number) (n d k e : Z) : Z * Z * Z :=
  match fuel with
  | O => (0, k, e)%Z
  | S f =>
      match candidates x n d k e ++ candidates x n d k (e + 1)%Z with
      | c :: cs => let '(s, e', _) := fold_left closer cs c in (s, k, e')
      | [] => shortest_digits f x n d (k + 1)%Z e
      end
  end.

Definition decimal_of_Z (z : Z) : string :=
  NilZero.string_of_uint (N.to_uint (Z.to_N z)).

Fixpoint zeros (n : nat) : string :=
  match n with O => EmptyString | S k => String "0" (zeros k) end.

Definition take (n : nat) (s : string) : string := substring 0 n s.

Definition positive_to_string (x : number) : string :=
  let (n, d) := exact_ratio x in
  let '(s, k, e) := shortest_digits 17 x n d 1 (decimal_exponent n d) in
  let digits := decimal_of_Z s in
  if ((k <=? e) && (e <=? 21))%Z then digits ++ zeros (Z.to_nat (e - k))
  else if ((0 <? e) && (e <=? 21))%Z
    then take (Z.to_nat e) digits ++ "." ++ drop (Z.to_nat e) digits
  else if ((-6 <? e) && (e <=? 0))%Z then "0." ++ zeros (Z.to_nat (- e)) ++ digits
  else
    let ex := ((if (0 <=? e - 1)%Z then "+" else "-") ++ decimal_of_Z (Z.abs (e - 1)))%string in
    if (k =? 1)%Z then digits ++ "e" ++ ex
    else take 1 digits ++ "." ++ drop 1 digits ++ "e" ++ ex.

Definition number_to_string (x : number) : string :=
  if is_nan x then "NaN"
  else if is_zero x then "0"
  else if is_infinity x then (if get_sign x then "-Infinity" else "Infinity")
  else if get_sign x then "-" ++ positive_to_string (- x)%float
  else positive_to_string x.

(** *** Values and exceptions *)

(** The primitive values: what a cell of a parsed CSV row can hold. *)
Inductive value : Type :=
| VUndefined
| VNull
| VBool (b : bool)
| VNum (n : number)
| VStr (s : string).

Definition truthy (v : value) : bool :=
  match v with
  | VUndefined | VNull => false
  | VBool b => b
  | VNum n => truthy_num n
  | VStr s => negb (is_empty s)
  end.

Definition ToString (v : value) : string :=
  match v with
  | VUndefined => "undefined"
  | VNull => "null"
  | VBool true => "true"
  | VBool false => "false"
  | VNum n => number_to_string n
  | VStr s => s
  end.

(** [v === s] for a string literal [s]. *)
Definition is_string (v : value) (s : string) : bool :=
  match v with VStr t => String.eqb t s | _ => false end.

Definition parseFloat (v : value) : number := parseFloat_string (ToString v).
Definition parseInt (v : value) : number := parseInt_string (ToString v).

Inductive exn : Type :=
| Error (message : string)
| TypeError (message : string).

Inductive result (A : Type) : Type :=
| Ok (a : A)
| Throw (e : exn).
Arguments Ok {A} a.
Arguments Throw {A} e.

Definition bind {A B} (r : result A) (k : A -> result B) : result B :=
  match r with
  | Ok a => k a
  | Throw e => Throw e
  end.

Fixpoint mapM {A B} (f : A -> result B) (l : list A) : result (list B) :=
  match l with
  | [] => Ok []
  | x :: r => bind (f x) (fun y => bind (mapM f r) (fun ys => Ok (y :: ys)))
  end.

Fixpoint filterM {A} (f : A -> result bool) (l : list A) : result (list A) :=
  match l with
  | [] => Ok []
  | x :: r =>
      bind (f x) (fun b => bind (filterM f r) (fun ys => Ok (if b then x :: ys else ys)))
  end.

(** What the program is handed as raw data: a primitive, an object whose
    properties hold primitives (a parsed row), or an array. *)
#[warnings="-register-all"]
Inductive data : Type :=
| Prim (v : value)
| Obj (fields : list (string * value))
| Arr (items : list data).

Definition isArray (d : data) : bool :=
  match d with Arr _ => true | _ => false end.

Fixpoint lookup (k : string) (fields : list (string * value)) : value :=
  match fields with
  | [] => VUndefined
  | (k', v) :: r => if String.eqb k' k then v else lookup k r
  end.

(** [d.k] and [d['k']] for a column name [k]: no primitive wrapper and no
    array has a property of such a name, and reading a property of
    [undefined] or [null] raises. *)
Definition get (d : data) (k : string) : result value :=
  match d with
  | Prim VUndefined => Throw (TypeError "Cannot read properties of undefined")
  | Prim VNull => Throw (TypeError "Cannot read properties of null")
  | Prim _ => Ok VUndefined
  | Obj fields => Ok (lookup k fields)
  | Arr _ => Ok VUndefined
  end.

(** [v?.trim()]: [undefined] is [None]. Only strings have a [trim] method. *)
Definition opt_trim (v : value) : result (option string) :=
  match v with
  | VUndefined | VNull => Ok None
  | VStr s => Ok (Some (trim s))
  | VNum _ | VBool _ => Throw (TypeError "trim is not a function")
  end.

(** [v?.toLowerCase()] *)
Definition opt_lower (v : value) : result (option string) :=
  match v with
  | VUndefined | VNull => Ok None
  | VStr s => Ok (Some (toLowerCase s))
  | VNum _ | VBool _ => Throw (TypeError "toLowerCase is not a function")
  end.

End Js.

Arguments Js.lt : simpl never.
Arguments Js.le : simpl never.
Arguments Js.gt : simpl never.
Arguments Js.ge : simpl never.
Arguments Js.eq : simpl never.
Arguments Js.isNaN : simpl never.
Arguments Js.truthy_num : simpl never.
Arguments Js.of_nat : simpl never.

Declare Scope js_scope.
Notation "x <- c1 ;; c2" := (Js.bind c1 (fun x => c2))
  (at level 61, c1 at next level, right associativity) : js_scope.

Local Open Scope js_scope.
Local Open Scope string_scope.

(** ** The parts of lodash and of the built-in objects that the program uses *)

Module Lodash.
Import Js.

(** The property key that a string-or-[undefined] property value becomes. *)
Definition property_key (s : option string) : string :=
  match s with Some t => t | None => "undefined" end.

(** An object used as a map, as the list of its properties in the order of
    their creation. *)
Definition object (A : Type) : Type := list (string * A).

Fixpoint add_to_group {A} (k : string) (x : A) (o : object (list A)) : object (list A) :=
  match o with
  | [] => [(k, [x])]
  | (k', xs) :: r =>
      if String.eqb k' k then (k', (xs ++ [x])%list) :: r
      else (k', xs) :: add_to_group k x r
  end.

(** [_.groupBy(collection, iteratee)] *)
Definition groupBy {A} (key : A -> string) (l : list A) : object (list A) :=
  fold_left (fun o x => add_to_group (key x) x o) l [].

Fixpoint all_digits (s : string) : bool :=
  match s with
  | EmptyString => true
  | String c r => is_digit c && all_digits r
  end.

(** The array index that a property key is, if it is one: a canonical
    numeric string below [2 ^ 32 - 1]. *)
Definition array_index (k : string) : option Z :=
  match k with
  | EmptyString => None
  | String c r =>
      if all_digits k && (negb (code c =? 48)%nat || is_empty r)
         && (digits_value k <? 4294967295)%Z
      then Some (digits_value k) else None
  end.

Fixpoint insert_index {A} (i : Z) (p : string * A) (l : list (Z * (string * A)))
  : list (Z * (string * A)) :=
  match l with
  | [] => [(i, p)]
  | (j, q) :: r => if (i <? j)%Z then (i, p) :: l else (j, q) :: insert_index i p r
  end.

Fixpoint indexed {A} (o : object A) : list (Z * (string * A)) :=
  match o with
  | [] => []
  | p :: r =>
      match array_index (fst p) with
      | Some i => insert_index i p (indexed r)
      | None => indexed r
      end
  end.

Definition named {A} (o : object A) : object A :=
  filter (fun p => match array_index (fst p) with Some _ => false | None => true end) o.

(** The order in which the properties of an object are enumerated: the
    array indices in ascending order, then the other keys in the order of
    their creation. *)
Definition own_properties {A} (o : object A) : object A :=
  (map snd (indexed o) ++ named o)%list.

(** [Object.values(o)] *)
Definition Object_values {A} (o : object A) : list A :=
  map snd (own_properties o).

(** One turn of the loop of [baseExtremum] with the comparator [baseGt]:
    the first element starts the maximum unless its criterion is [NaN], and
    a later one replaces it only when strictly greater. *)
Definition extremum_step {A} (iteratee : A -> number) (acc : option (number * A)) (value : A)
  : option (number * A) :=
  let current := iteratee value in
  match acc with
  | None => if isNaN current then None else Some (current, value)
  | Some (computed, _) => if gt current computed then Some (current, value) else acc
  end.

(** [_.maxBy(array, iteratee)]; [None] is [undefined]. *)
Definition maxBy {A} (iteratee : A -> number) (array : list A) : option A :=
  option_map snd (fold_left (extremum_step iteratee) array None).

(** [baseSum] over numbers; [None] is [undefined]. *)
Definition baseSum (array : list number) : option number :=
  fold_left (fun acc x => match acc with None => Some x | Some r => Some (r + x)%float end)
            array None.

(** [_.sum(array)] *)
Definition sum (array : list number) : number :=
  match baseSum array with Some r => r | None => 0%float end.

(** [_.mean(array)] *)
Definition mean (array : list number) : number :=
  match baseSum array with
  | Some r => (r / of_nat (List.length array))%float
  | None => NaN
  end.

(** [array.sort(compare)]: stable, and a comparator result that is [NaN]
    counts as zero. *)
Fixpoint insert_sorted {A} (compare : A -> A -> number) (x : A) (l : list A) : list A :=
  match l with
  | [] => [x]
  | y :: r => if gt (compare x y) 0%float then y :: insert_sorted compare x r else x :: l
  end.

Definition sort {A} (compare : A -> A -> number) (l : list A) : list A :=
  fold_right (insert_sorted compare) [] l.

(** [Math.min(...values)] and [Math.max(...values)] on numbers that are not
    [NaN]; the negative zero is below the positive one. *)
Definition below (x y : number) : bool :=
  lt x y || (is_zero x && is_zero y && get_sign x && negb (get_sign y)).

Definition Math_min (values : list number) : number :=
  fold_left (fun m x => if isNaN m || isNaN x then NaN else if below x m then x else m)
            values infinity.

Definition Math_max (values : list number) : number :=
  fold_left (fun m x => if isNaN m || isNaN x then NaN else if below m x then x else m)
            values neg_infinity.

End Lodash.

(** ** The functions of the mathjs library that the program calls

    The library is a dependency of the program. The definitions follow what
    the library does with an array of plain numbers and default options. *)

Module MathJS.
Import Js.

Definition ascending (a b : number) : number := (a - b)%float.

(** [math.sum]: the elements added from left to right. *)
Definition sum (values : list number) : result number :=
  match values with
  | [] => Throw (Error "Cannot calculate sum of an empty array")
  | x :: r => Ok (fold_left (fun s v => (s + v)%float) r x)
  end.

(** [math.variance(values)]: the normalization is ['unbiased'] unless one
    is given, so the squared deviations are divided by [n - 1], and the
    variance of a single value is 0. *)
Definition variance (values : list number) : result number :=
  match values with
  | [] => Throw (Error "Cannot calculate variance of an empty array")
  | x :: r =>
      let num := List.length values in
      let mean := (fold_left (fun s v => (s + v)%float) r x / of_nat num)%float in
      let diff2 := fun v => ((v - mean) * (v - mean))%float in
      let total := fold_left (fun s v => (s + diff2 v)%float) r (diff2 x) in
      if isNaN total then Ok total
      else if (num =? 1)%nat then Ok 0%float
      else Ok (total / of_nat (num - 1))%float
  end.

(** [math.std(values)]: the square root of [math.variance(values)]. *)
Definition std (values : list number) : result number :=
  v <- variance values ;; Ok (sqrt v).

(** The counts that [math.mode] keeps, keyed by the value. Two numbers are
    the same key when they are written the same, which for numbers that are
    not [NaN] is when they are equal. *)
Fixpoint bump (v : number) (count : list (number * nat)) : list (number * nat) * nat :=
  match count with
  | [] => ([(v, 1)], 1)
  | (k, c) :: r =>
      if eq k v then ((k, S c) :: r, S c)
      else let (r', c') := bump v r in ((k, c) :: r', c')
  end.

Definition mode_step (st : list (number * nat) * list number * nat) (value : number)
  : list (number * nat) * list number * nat :=
  let '(count, mode, max) := st in
  let (count', c) := bump value count in
  if (c =? max)%nat then (count', (mode ++ [value])%list, max)
  else if (max <? c)%nat then (count', [value], c)
  else (count', mode, max).

(** [math.mode(values)]: the array of every value that occurs most often. *)
Definition mode (values : list number) : result (list number) :=
  match values with
  | [] => Throw (Error "Cannot calculate mode of an empty array")
  | _ =>
      if existsb isNaN values
      then Throw (Error "Cannot calculate mode of an array containing NaN values")
      else let '(_, m, _) := fold_left mode_step values ([], [], 0) in Ok m
  end.

(** [math.median(values)] *)
Definition median (values : list number) : result number :=
  match values with
  | [] => Throw (Error "Cannot calculate median of an empty array")
  | _ =>
      let sorted := Lodash.sort ascending values in
      let n := List.length values in
      let mid := Nat.div n 2 in
      if Nat.even n
      then Ok ((nth (mid - 1) sorted NaN + nth mid sorted NaN) / 2)%float
      else Ok (nth mid sorted NaN)
  end.

(** The integer part of a number that is not negative. *)
Definition floor_nat (x : number) : nat :=
  if is_zero x || is_nan x || is_infinity x then O
  else let (n, d) := exact_ratio x in Z.to_nat (n / d).

(** [math.quantileSeq(values, prob)] for a number [prob]: linear
    interpolation between the two order statistics around
    [prob * (n - 1)]. *)
Definition quantileSeq (values : list number) (prob : number) : result number :=
  match values with
  | [] => Throw (Error "Cannot calculate quantile of an empty sequence")
  | _ =>
      let sorted := Lodash.sort ascending values in
      let index := (prob * of_nat (List.length values - 1))%float in
      let integerPart := floor_nat index in
      let fracPart := (index - of_nat integerPart)%float in
      if is_zero fracPart then Ok (nth integerPart sorted NaN)
      else
        let left := nth integerPart sorted NaN in
        let right := nth (S integerPart) sorted NaN in
        Ok (left * (1 - fracPart) + right * fracPart)%float
  end.

(** What [math.corr] hands back: a number, or the complex number that the
    square root of a negative number is. *)
Inductive scalar : Type :=
| Real (x : number)
| Complex.

(** [math.corr(A, B)] on two arrays of numbers. *)
Definition corr (A B : list number) : result scalar :=
  if negb (List.length A =? List.length B)%nat
  then Throw (Error "Dimension mismatch. Array A and B must have the same number of elements.")
  else
    sumX <- sum A ;;
    sumY <- sum B ;;
    let n := of_nat (List.length A) in
    let sumXY := fold_left (fun acc p => (acc + fst p * snd p)%float) (combine A B) 0%float in
    sumXSquare <- sum (map (fun x => (x * x)%float) A) ;;
    sumYSquare <- sum (map (fun y => (y * y)%float) B) ;;
    let numerator := (n * sumXY - sumX * sumY)%float in
    let radicand := ((n * sumXSquare - sumX * sumX) * (n * sumYSquare - sumY * sumY))%float in
    if lt radicand 0%float then Ok Complex
    else Ok (Real (numerator / sqrt radicand)%float).

(** The namespace [math] that [import * as math from 'mathjs'] binds. The
    functions above are exported under their names by every release, except
    two of the names that the program uses: [var] is the name that
    [variance] had in the early releases, and [corr] exists in the late
    ones only. A name that the installed release does not export is
    [undefined], and calling it raises a [TypeError]. *)
Record namespace : Type := {
  var : option (list number -> result number);
  corr_export : option (list number -> list number -> result scalar)
}.

Definition call_var (math : namespace) (values : list number) : result number :=
  match var math with
  | Some f => f values
  | None => Throw (TypeError "math.var is not a function")
  end.


(** The library as the program expects it: both names are there. *)
Definition expected : namespace :=
  {| var := Some variance; corr_export := Some corr |}.

(** The library without the name [var], as the releases export it that
    have [corr] (the documentation of the program names Math.js 11.11.0). *)
Definition without_var : namespace :=
  {| var := None; corr_export := Some corr |}.

End MathJS.

(** ** [utils/constants.js] *)

Module Constants.

Record InstallRange : Type := {
  label : string;
  min : Js.number;
  max : Js.number
}.

Definition INSTALL_RANGES : list InstallRange := [
  {| label := "0-1K"; min := 0; max := 1000 |};
  {| label := "1K-10K"; min := 1000; max := 10000 |};
  {| label := "10K-100K"; min := 10000; max := 100000 |};
  {| label := "100K-1M"; min := 100000; max := 1000000 |};
  {| label := "1M-10M"; min := 1000000; max := 10000000 |};
  {| label := "10M-100M"; min := 10000000; max := 100000000 |};
  {| label := "100M+"; min := 100000000; max := Js.Infinity |}
]%float.

End Constants.

(** ** [utils/dataProcessor.js] *)

Module DataProcessor.
Import Js Constants.

(** [convertSizeToBytes]: [None] is [null]. *)
Definition convertSizeToBytes (sizeString : value) : option number :=
  if negb (truthy sizeString) || is_string sizeString "Varies with device" then None
  else
    let sizeStr := toLowerCase (ToString sizeString) in
    let numericValue := parseFloat_string sizeStr in
    if includes sizeStr "k" then Some (numericValue * 1024)%float
    else if includes sizeStr "m" then Some (numericValue * 1024 * 1024)%float
    else if includes sizeStr "g" then Some (numericValue * 1024 * 1024 * 1024)%float
    else Some numericValue.

Definition comma_or_plus (c : ascii) : bool :=
  (code c =? 44)%nat || (code c =? 43)%nat.

Definition convertInstallsToNumber (installString : value) : number :=
  if negb (truthy installString) then 0%float
  else
    let installStr := trim (remove_all comma_or_plus (ToString installString)) in
    or_num (parseInt_string installStr) 0%float.

(** [convertPriceToNumber]; the pattern replaced is the dollar sign of the
    documented input ["$4.99"]. *)
Definition convertPriceToNumber (priceString : value) : number :=
  if negb (truthy priceString) || is_string priceString "Free" || is_string priceString "0"
  then 0%float
  else
    let priceStr := replace "$" "" (ToString priceString) in
    or_num (parseFloat_string priceStr) 0%float.

Definition in_range (installs : number) (range : InstallRange) : bool :=
  ge installs (min range) && lt installs (max range).

Definition categorizeInstalls (installs : number) : string :=
  match find (in_range installs) INSTALL_RANGES with
  | Some range => label range
  | None => "Unknown"
  end.

(** The canonical app record that [processAppsData] builds. A property that
    is a string or [undefined] is an [option string]; [rating] and
    [sizeBytes] are a number or [null]; [hasRating] is what
    [parseFloat(r) && parseFloat(r) > 0] leaves. *)
Record App : Type := {
  app : option string;
  category : option string;
  rating : option number;
  reviews : number;
  size : option string;
  sizeBytes : option number;
  installs : option string;
  installsNumber : number;
  installsCategory : string;
  type : option string;
  price : value;
  priceNumber : number;
  contentRating : option string;
  genres : option string;
  lastUpdated : option string;
  currentVersion : option string;
  androidVersion : option string;
  isPaid : bool;
  hasRating : value;
  isPopular : bool
}.

(** [x || null] on a number. *)
Definition or_null (x : number) : option number :=
  if truthy_num x then Some x else None.

(** [x && x > 0] on a number. *)
Definition and_positive (x : number) : value :=
  if truthy_num x then VBool (gt x 0%float) else VNum x.

(** Truthiness of a property that is a string or [undefined]. *)
Definition truthy_str (s : option string) : bool :=
  match s with Some t => negb (is_empty t) | None => false end.

(** [app => app.App && app.Category] *)
Definition has_critical_data (row : data) : result bool :=
  a <- get row "App" ;;
  if truthy a then (c <- get row "Category" ;; Ok (truthy c)) else Ok false.

(** The callback of [map] in [processAppsData]; the properties are evaluated
    in the order of the object literal. *)
Definition normalizeApp (row : data) : result App :=
  vApp <- get row "App" ;; app_ <- opt_trim vApp ;;
  vCategory <- get row "Category" ;; category_ <- opt_trim vCategory ;;
  vRating <- get row "Rating" ;;
  vReviews <- get row "Reviews" ;;
  vSize <- get row "Size" ;; size_ <- opt_trim vSize ;;
  vInstalls <- get row "Installs" ;; installs_ <- opt_trim vInstalls ;;
  vType <- get row "Type" ;; type_ <- opt_trim vType ;;
  vPrice <- get row "Price" ;;
  vContent <- get row "Content Rating" ;; contentRating_ <- opt_trim vContent ;;
  vGenres <- get row "Genres" ;; genres_ <- opt_trim vGenres ;;
  vUpdated <- get row "Last Updated" ;; lastUpdated_ <- opt_trim vUpdated ;;
  vCurrent <- get row "Current Ver" ;; currentVersion_ <- opt_trim vCurrent ;;
  vAndroid <- get row "Android Ver" ;; androidVersion_ <- opt_trim vAndroid ;;
  Ok {| app := app_;
        category := category_;
        rating := or_null (parseFloat vRating);
        reviews := or_num (parseInt vReviews) 0%float;
        size := size_;
        sizeBytes := convertSizeToBytes vSize;
        installs := installs_;
        installsNumber := convertInstallsToNumber vInstalls;
        installsCategory := categorizeInstalls (convertInstallsToNumber vInstalls);
        type := type_;
        price := vPrice;
        priceNumber := convertPriceToNumber vPrice;
        contentRating := contentRating_;
        genres := genres_;
        lastUpdated := lastUpdated_;
        currentVersion := currentVersion_;
        androidVersion := androidVersion_;
        isPaid := gt (convertPriceToNumber vPrice) 0%float;
        hasRating := and_positive (parseFloat vRating);
        isPopular := ge (convertInstallsToNumber vInstalls) 1000000%float |}.

(** [app => app.app && app.category] *)
Definition is_clean (a : App) : bool :=
  truthy_str (app a) && truthy_str (category a).

Definition processAppsData (rawData : data) : result (list App) :=
  match rawData with
  | Arr rows =>
      kept <- filterM has_critical_data rows ;;
      apps <- mapM normalizeApp kept ;;
      Ok (filter is_clean apps)
  | _ => Throw (Error "Invalid data format: expected array")
  end.

Record Review : Type := {
  r_app : option string;
  translatedReview : option string;
  sentiment : option string;
  sentimentPolarity : number;
  sentimentSubjectivity : number;
  isPositive : bool;
  isNegative : bool;
  isNeutral : bool
}.

(** [review => review.App && review.Sentiment && review.Sentiment !== 'nan'] *)
Definition has_sentiment (row : data) : result bool :=
  a <- get row "App" ;;
  if truthy a then
    s <- get row "Sentiment" ;;
    if truthy s then (s' <- get row "Sentiment" ;; Ok (negb (is_string s' "nan")))
    else Ok false
  else Ok false.

Definition is_label (s : option string) (l : string) : bool :=
  match s with Some t => String.eqb t l | None => false end.

Definition normalizeReview (row : data) : result Review :=
  vApp <- get row "App" ;; app_ <- opt_trim vApp ;;
  vText <- get row "Translated_Review" ;; text_ <- opt_trim vText ;;
  vSentiment <- get row "Sentiment" ;; sentiment_ <- opt_trim vSentiment ;;
  vPolarity <- get row "Sentiment_Polarity" ;;
  vSubjectivity <- get row "Sentiment_Subjectivity" ;;
  l1 <- opt_lower vSentiment ;;
  l2 <- opt_lower vSentiment ;;
  l3 <- opt_lower vSentiment ;;
  Ok {| r_app := app_;
        translatedReview := text_;
        sentiment := sentiment_;
        sentimentPolarity := or_num (parseFloat vPolarity) 0%float;
        sentimentSubjectivity := or_num (parseFloat vSubjectivity) 0%float;
        isPositive := is_label l1 "positive";
        isNegative := is_label l2 "negative";
        isNeutral := is_label l3 "neutral" |}.

Definition processReviewsData (rawReviews : data) : result (list Review) :=
  match rawReviews with
  | Arr rows =>
      kept <- filterM has_sentiment rows ;;
      mapM normalizeReview kept
  | _ => Throw (Error "Invalid data format: expected array")
  end.

(** [removeDuplicateApps]: an element of the result is [None] where the
    program leaves [undefined]. *)
Definition name_key (a : App) : string := Lodash.property_key (app a).

Definition keep_most_reviewed (appGroup : list App) : option App :=
  match appGroup with
  | [a] => Some a
  | _ => Lodash.maxBy reviews appGroup
  end.

Definition removeDuplicateApps (apps : list App) : list (option App) :=
  let groupedApps := Lodash.groupBy name_key apps in
  map keep_most_reviewed (Lodash.Object_values groupedApps).

(** The filter criteria; [None] is a key that is absent or [undefined]. *)
Record Filters : Type := {
  f_category : option string;
  f_minRating : option number;
  f_type : option string;
  f_contentRating : option string;
  f_isPaid : option bool
}.

(** [a === b] where [a] is a string or [undefined] and [b] a string. *)
Definition same_string (a : option string) (b : string) : bool :=
  match a with Some s => String.eqb s b | None => false end.

(** The number that a rating becomes in a comparison: [null] is 0. *)
Definition rating_number (r : option number) : number :=
  match r with Some x => x | None => 0%float end.

Definition filterApps (apps : list App) (filters : Filters) : list App :=
  let filteredApps := apps in
  let filteredApps :=
    match f_category filters with
    | Some c => if negb (is_empty c)
                then filter (fun a => same_string (category a) c) filteredApps
                else filteredApps
    | None => filteredApps
    end in
  let filteredApps :=
    match f_minRating filters with
    | Some m => if truthy_num m
                then filter (fun a => ge (rating_number (rating a)) m) filteredApps
                else filteredApps
    | None => filteredApps
    end in
  let filteredApps :=
    match f_type filters with
    | Some t => if negb (is_empty t)
                then filter (fun a => same_string (type a) t) filteredApps
                else filteredApps
    | None => filteredApps
    end in
  let filteredApps :=
    match f_contentRating filters with
    | Some c => if negb (is_empty c)
                then filter (fun a => same_string (contentRating a) c) filteredApps
                else filteredApps
    | None => filteredApps
    end in
  let filteredApps :=
    match f_isPaid filters with
    | Some p => filter (fun a => Bool.eqb (isPaid a) p) filteredApps
    | None => filteredApps
    end in
  filteredApps.

End DataProcessor.

(** *** [filterApps] with the arrays in a store

    The same function with the arrays it reads and builds made explicit: an
    array lives in a store and is referred to by its index. The spread
    [[...apps]] and every call of [filter] allocate; nothing is written to an
    array that exists. *)

Module Store.
Import Js DataProcessor.

Definition store : Type := list (list App).
Definition ref : Type := nat.

Definition read (h : store) (r : ref) : list App := nth r h [].

Definition alloc (h : store) (a : list App) : store * ref :=
  ((h ++ [a])%list, List.length h).

(** [if (active) { filteredApps = filteredApps.filter(p) }] *)
Definition guarded (active : bool) (p : App -> bool) (st : store * ref) : store * ref :=
  if active then alloc (fst st) (filter p (read (fst st) (snd st))) else st.

Definition filterApps (h : store) (apps : ref) (filters : Filters) : store * ref :=
  let st := alloc h (read h apps) in
  let st :=
    match f_category filters with
    | Some c => guarded (negb (is_empty c)) (fun a => same_string (category a) c) st
    | None => st
    end in
  let st :=
    match f_minRating filters with
    | Some m => guarded (truthy_num m) (fun a => ge (rating_number (rating a)) m) st
    | None => st
    end in
  let st :=
    match f_type filters with
    | Some t => guarded (negb (is_empty t)) (fun a => same_string (type a) t) st
    | None => st
    end in
  let st :=
    match f_contentRating filters with
    | Some c => guarded (negb (is_empty c)) (fun a => same_string (contentRating a) c) st
    | None => st
    end in
  let st :=
    match f_isPaid filters with
    | Some p => guarded true (fun a => Bool.eqb (isPaid a) p) st
    | None => st
    end in
  st.

End Store.


(** ** [utils/statisticalAnalysis.js] *)

Module StatisticalAnalysis.
Import Js.

(** An element of a numeric array: a number, [null] or [undefined]. *)
Inductive entry : Type :=
| ENull
| EUndefined
| ENum (n : number).

(** [v => v !== null && v !== undefined && !isNaN(v)], and the numbers that
    pass it. *)
Definition is_clean_entry (v : entry) : bool :=
  match v with
  | ENum n => negb (isNaN n)
  | _ => false
  end.

Definition numbers_of (l : list entry) : list number :=
  flat_map (fun v => match v with ENum n => [n] | _ => [] end) l.

Record BasicStats : Type := {
  count : number;
  mean : number;
  median : number;
  mode : option (list number);
  min : number;
  max : number;
  std : number;
  variance : number;
  q1 : number;
  q3 : number;
  iqr : number
}.

Definition zero_stats : BasicStats :=
  {| count := 0; mean := 0; median := 0; mode := None; min := 0; max := 0;
     std := 0; variance := 0; q1 := 0; q3 := 0; iqr := 0 |}%float.

Section Library.
Variable math : MathJS.namespace.

Definition calculateBasicStats (values : list entry) : result BasicStats :=
  let cleanValues := numbers_of (filter is_clean_entry values) in
  if (List.length cleanValues =? 0)%nat then Ok zero_stats
  else
    let sorted := Lodash.sort MathJS.ascending cleanValues in
    let n := List.length cleanValues in
    median_ <- MathJS.median cleanValues ;;
    mode_ <- MathJS.mode cleanValues ;;
    std_ <- MathJS.std cleanValues ;;
    variance_ <- MathJS.call_var math cleanValues ;;
    q1_ <- MathJS.quantileSeq sorted 0.25%float ;;
    q3_ <- MathJS.quantileSeq sorted 0.75%float ;;
    q3' <- MathJS.quantileSeq sorted 0.75%float ;;
    q1' <- MathJS.quantileSeq sorted 0.25%float ;;
    Ok {| count := of_nat n;
          mean := Lodash.mean cleanValues;
          median := median_;
          mode := Some mode_;
          min := Lodash.Math_min cleanValues;
          max := Lodash.Math_max cleanValues;
          std := std_;
          variance := variance_;
          q1 := q1_;
          q3 := q3_;
          iqr := (q3' - q1')%float |}.



Record RatingDistribution : Type := {
  total : number;
  distribution : Lodash.object number;
  stats : BasicStats
}.

Definition count_of {A} (p : A -> bool) (l : list A) : number :=
  of_nat (List.length (filter p l)).

Definition between (lo hi : number) (r : number) : bool := ge r lo && lt r hi.

(** [analyzeRatingDistribution] on an array of numbers. *)
Definition analyzeRatingDistribution (ratings : list number) : result RatingDistribution :=
  let cleanRatings := filter (fun r => negb (isNaN r) && gt r 0%float) ratings in
  if (List.length cleanRatings =? 0)%nat then
    stats_ <- calculateBasicStats [] ;;
    Ok {| total := 0%float; distribution := []; stats := stats_ |}
  else
    stats_ <- calculateBasicStats (map ENum cleanRatings) ;;
    Ok {| total := of_nat (List.length cleanRatings);
          distribution :=
            [("1.0-1.9", count_of (between 1 2) cleanRatings);
             ("2.0-2.9", count_of (between 2 3) cleanRatings);
             ("3.0-3.9", count_of (between 3 4) cleanRatings);
             ("4.0-4.4", count_of (between 4 4.5) cleanRatings);
             ("4.5-5.0", count_of (fun r => ge r 4.5 && le r 5) cleanRatings)]%float;
          stats := stats_ |}.

Record Outliers : Type := {
  outliers : list number;
  lowerBound : number;
  upperBound : number;
  outlierCount : number;
  outlierPercentage : option number
}.

(** [identifyOutliers] on an array of numbers. *)
Definition identifyOutliers (values : list number) : result Outliers :=
  let cleanValues := filter (fun v => negb (isNaN v)) values in
  if (List.length cleanValues <? 4)%nat then
    Ok {| outliers := []; lowerBound := 0%float; upperBound := 0%float;
          outlierCount := 0%float; outlierPercentage := None |}
  else
    stats_ <- calculateBasicStats (map ENum cleanValues) ;;
    let lowerBound_ := (q1 stats_ - 1.5 * iqr stats_)%float in
    let upperBound_ := (q3 stats_ + 1.5 * iqr stats_)%float in
    let outliers_ := filter (fun v => lt v lowerBound_ || gt v upperBound_) cleanValues in
    Ok {| outliers := outliers_;
          lowerBound := lowerBound_;
          upperBound := upperBound_;
          outlierCount := of_nat (List.length outliers_);
          outlierPercentage :=
            Some (of_nat (List.length outliers_) / of_nat (List.length cleanValues) * 100)%float |}.

End Library.

End StatisticalAnalysis.

(** ** [utils/analytics.js] *)

Module Analytics.
Import Js DataProcessor StatisticalAnalysis.

Record Overview : Type := {
  totalApps : number;
  appsWithRatings : number;
  paidApps : number;
  freeApps : number;
  popularApps : number;
  totalInstalls : number;
  totalReviews : number;
  avgRating : number;
  ratingsPercentage : number;
  paidAppsPercentage : number;
  popularAppsPercentage : number
}.

(** [app => app.rating]: the rating is there and is not 0 or [NaN]. *)
Definition rated (a : App) : bool :=
  match rating a with Some r => truthy_num r | None => false end.

Definition ratings_of (apps : list App) : list number :=
  map (fun a => rating_number (rating a)) (filter rated apps).

Definition generateOverviewAnalytics (apps : list App) : Overview :=
  let totalApps_ := of_nat (List.length apps) in
  let appsWithRatings_ := filter (fun a => truthy (hasRating a)) apps in
  let paidApps_ := filter isPaid apps in
  let popularApps_ := filter isPopular apps in
  let totalInstalls_ := Lodash.sum (map installsNumber apps) in
  let totalReviews_ := Lodash.sum (map reviews apps) in
  let avgRating_ := Lodash.mean (ratings_of apps) in
  {| totalApps := totalApps_;
     appsWithRatings := of_nat (List.length appsWithRatings_);
     paidApps := of_nat (List.length paidApps_);
     freeApps := (totalApps_ - of_nat (List.length paidApps_))%float;
     popularApps := of_nat (List.length popularApps_);
     totalInstalls := totalInstalls_;
     totalReviews := totalReviews_;
     avgRating := or_num avgRating_ 0%float;
     ratingsPercentage := (of_nat (List.length appsWithRatings_) / totalApps_ * 100)%float;
     paidAppsPercentage := (of_nat (List.length paidApps_) / totalApps_ * 100)%float;
     popularAppsPercentage := (of_nat (List.length popularApps_) / totalApps_ * 100)%float |}.

Record RatingAnalytics : Type := {
  ratingDistribution : RatingDistribution;
  ratingStats : BasicStats;
  ratingOutliers : Outliers;
  topRatedApps : list App;
  poorlyRatedApps : list App;
  highRatedPercentage : number
}.

Definition rating_value (a : App) : number := rating_number (rating a).

Section Library.
Variable math : MathJS.namespace.

Definition generateRatingAnalytics (apps : list App) : result RatingAnalytics :=
  let ratings := ratings_of apps in
  ratingDistribution_ <- analyzeRatingDistribution math ratings ;;
  ratingStats_ <- calculateBasicStats math (map ENum ratings) ;;
  ratingOutliers_ <- identifyOutliers math ratings ;;
  let topRatedApps_ :=
    firstn 10 (Lodash.sort (fun a b => (rating_value b - rating_value a)%float)
                 (filter (fun a => ge (rating_value a) 4.5%float) apps)) in
  let poorlyRatedApps_ :=
    firstn 10 (Lodash.sort (fun a b => (rating_value a - rating_value b)%float)
                 (filter (fun a => lt (rating_value a) 3%float && gt (rating_value a) 0%float) apps)) in
  Ok {| ratingDistribution := ratingDistribution_;
        ratingStats := ratingStats_;
        ratingOutliers := ratingOutliers_;
        topRatedApps := topRatedApps_;
        poorlyRatedApps := poorlyRatedApps_;
        highRatedPercentage :=
          (of_nat (List.length (filter (fun a => ge (rating_value a) 4%float) apps))
           / of_nat (List.length (filter rated apps)) * 100)%float |}.

Record Sentiments : Type := {
  positive : number;
  negative : number;
  neutral : number
}.

Record SentimentAnalytics : Type := {
  sa_totalReviews : number;
  sentimentCounts : Sentiments;
  sentimentPercentages : Sentiments;
  polarityStats : BasicStats;
  subjectivityStats : BasicStats
}.

Definition generateSentimentAnalytics (reviews : list Review) : result SentimentAnalytics :=
  let sentimentCounts_ :=
    {| positive := count_of isPositive reviews;
       negative := count_of isNegative reviews;
       neutral := count_of isNeutral reviews |} in
  let total_ := of_nat (List.length reviews) in
  let sentimentPercentages_ :=
    {| positive := (positive sentimentCounts_ / total_ * 100)%float;
       negative := (negative sentimentCounts_ / total_ * 100)%float;
       neutral := (neutral sentimentCounts_ / total_ * 100)%float |} in
  polarityStats_ <-
    calculateBasicStats math
      (map ENum (filter (fun p => negb (isNaN p)) (map sentimentPolarity reviews))) ;;
  subjectivityStats_ <-
    calculateBasicStats math
      (map ENum (filter (fun s => negb (isNaN s)) (map sentimentSubjectivity reviews))) ;;
  Ok {| sa_totalReviews := total_;
        sentimentCounts := sentimentCounts_;
        sentimentPercentages := sentimentPercentages_;
        polarityStats := polarityStats_;
        subjectivityStats := subjectivityStats_ |}.

End Library.

End Analytics.

(** ** Specification vocabulary *)

(** *** The order of the numbers

    A number that is not [NaN] is placed on a line by a key: the class
    (infinite, finite, zero, with the sign), then the exponent, then the
    mantissa. The comparisons of numbers are the lexicographic comparisons
    of their keys. *)

Module Key.

Definition key : Type := (Z * Z * Z)%type.

Definition of_spec (f : spec_float) : option key :=
  match f with
  | S754_nan => None
  | S754_infinity true => Some (-2, 0, 0)%Z
  | S754_infinity false => Some (2, 0, 0)%Z
  | S754_zero _ => Some (0, 0, 0)%Z
  | S754_finite true m e => Some (-1, - e, Z.neg m)%Z
  | S754_finite false m e => Some (1, e, Z.pos m)%Z
  end.

Definition of_number (x : Js.number) : option key := of_spec (Prim2SF x).

Definition compare (a b : key) : comparison :=
  let '(c1, e1, m1) := a in
  let '(c2, e2, m2) := b in
  match (c1 ?= c2)%Z with
  | Eq => match (e1 ?= e2)%Z with Eq => (m1 ?= m2)%Z | r => r end
  | r => r
  end.

Definition ltb (a b : key) : bool :=
  let '(c1, e1, m1) := a in
  let '(c2, e2, m2) := b in
  ((c1 <? c2) || ((c1 =? c2) && ((e1 <? e2) || ((e1 =? e2) && (m1 <? m2)))))%Z.

Definition eqb (a b : key) : bool :=
  let '(c1, e1, m1) := a in
  let '(c2, e2, m2) := b in
  ((c1 =? c2) && (e1 =? e2) && (m1 =? m2))%Z.

Definition lift (r : key -> key -> bool) (a b : option key) : bool :=
  match a, b with
  | Some ka, Some kb => r ka kb
  | _, _ => false
  end.

End Key.

(** *** Numeric strings

    A numeric string is one that [parseFloat] reads to its end as a decimal
    literal: an optional sign, digits with an optional fraction, and an
    optional exponent. [render] writes such a literal from its parts. *)

Module Literal.
Import Js.

Definition is_numeric_string (v : string) : bool :=
  match scan_literal v with
  | Some (LDecimal _ _ _ _, EmptyString) => true
  | _ => false
  end.

Definition sign_string (sg : option bool) : string :=
  match sg with None => "" | Some false => "+" | Some true => "-" end.

Definition is_minus (sg : option bool) : bool :=
  match sg with Some true => true | _ => false end.

Definition fraction_string (frac : option string) : string :=
  match frac with None => "" | Some fp => String "." fp end.

Definition exponent_string (ex : option (ascii * option bool * string)) : string :=
  match ex with
  | None => ""
  | Some (mark, sg, d) => String mark (sign_string sg ++ d)
  end.

Definition render (sg : option bool) (ip : string) (frac : option string)
  (ex : option (ascii * option bool * string)) : string :=
  sign_string sg ++ ip ++ fraction_string frac ++ exponent_string ex.

Definition read_exponent (ex : option (ascii * option bool * string)) : option (bool * string) :=
  match ex with None => None | Some (_, sg, d) => Some (is_minus sg, d) end.

Definition read (sg : option bool) (ip : string) (frac : option string)
  (ex : option (ascii * option bool * string)) : literal :=
  LDecimal (is_minus sg) ip (match frac with Some fp => fp | None => "" end) (read_exponent ex).

Definition well_formed_exponent (ex : option (ascii * option bool * string)) : Prop :=
  match ex with
  | None => True
  | Some (mark, _, d) =>
      is_exp_mark mark = true /\ Lodash.all_digits d = true /\ is_empty d = false
  end.

Definition well_formed (ip : string) (frac : option string)
  (ex : option (ascii * option bool * string)) : Prop :=
  Lodash.all_digits ip = true /\
  match frac with
  | None => is_empty ip = false
  | Some fp => Lodash.all_digits fp = true /\ is_empty ip && is_empty fp = false
  end /\
  well_formed_exponent ex.

(** What can follow a literal without being read as part of it. *)
Definition inert (t : string) : Prop :=
  match t with
  | EmptyString => True
  | String c _ => is_digit c = false /\ c <> "."%char /\ is_exp_mark c = false
  end.

Definition head_not_digit (t : string) : Prop :=
  match t with EmptyString => True | String c _ => is_digit c = false end.

Definition head_is (p : ascii -> bool) (s : string) : bool :=
  match s with String c _ => p c | EmptyString => false end.

Definition lower_exponent (ex : option (ascii * option bool * string))
  : option (ascii * option bool * string) :=
  match ex with None => None | Some (_, sg, d) => Some ("e"%char, sg, d) end.

(** Occurrences of one code unit. *)
Fixpoint occurs (x : ascii) (s : string) : bool :=
  match s with
  | EmptyString => false
  | String c r => Ascii.eqb x c || occurs x r
  end.

(** A letter that a lower-cased literal does not contain. *)
Definition plain_letter (x : ascii) : Prop :=
  is_digit x = false /\ x <> "+"%char /\ x <> "-"%char /\ x <> "."%char /\ x <> "e"%char.

End Literal.

(** *** Install buckets *)

(** [r] is the one entry of the table that holds [n], and its label is what
    [categorizeInstalls] answers. *)
Definition one_bucket (n : Js.number) (r : Constants.InstallRange) : Prop :=
  In r Constants.INSTALL_RANGES /\
  filter (DataProcessor.in_range n) Constants.INSTALL_RANGES = [r] /\
  DataProcessor.categorizeInstalls n = Constants.label r /\
  Constants.label r <> "Unknown".

(** *** Prices *)

Module Price.
Import Js.

(** The inputs for which the price is 0 outright. *)
Definition is_free (s : string) : bool :=
  is_empty s || String.eqb s "Free" || String.eqb s "0".

(** [s] without the first occurrence of [c]. *)
Fixpoint without_first (c : ascii) (s : string) : string :=
  match s with
  | EmptyString => EmptyString
  | String x r => if Ascii.eqb x c then r else String x (without_first c r)
  end.

(** The currency symbols among the code units below 256: the dollar, the
    cent, the pound, the generic sign and the yen. *)
Definition is_currency_symbol (c : ascii) : bool :=
  (code c =? 36)%nat || ((162 <=? code c)%nat && (code c <=? 165)%nat).

(** [s] without a currency symbol at its start. *)
Definition without_leading_symbol (s : string) : string :=
  match s with
  | String c r => if is_currency_symbol c then r else s
  | EmptyString => s
  end.

(** The price as the specification words it: 0 for the free inputs, else
    the leading currency symbol is dropped and the rest is parsed, 0 when
    that fails. *)
Definition price_as_specified (s : string) : number :=
  if is_free s then 0%float
  else or_num (parseFloat_string (without_leading_symbol s)) 0%float.

End Price.

(** *** Filter criteria *)

Module Criteria.
Import Js DataProcessor.

Definition holds {A} (o : option A) (p : A -> bool) : bool :=
  match o with Some x => p x | None => true end.

(** A criterion constrains when its value is truthy: a string that is not
    empty, a number that is neither 0 nor [NaN]. *)
Definition active_string (o : option string) : option string :=
  match o with
  | Some s => if is_empty s then None else Some s
  | None => None
  end.

Definition active_number (o : option number) : option number :=
  match o with
  | Some x => if truthy_num x then Some x else None
  | None => None
  end.

(** The conjunction of the criteria that constrain. *)
Definition meets (f : Filters) (a : App) : bool :=
  holds (active_string (f_category f)) (same_string (category a)) &&
  holds (active_number (f_minRating f)) (ge (rating_number (rating a))) &&
  holds (active_string (f_type f)) (same_string (type a)) &&
  holds (active_string (f_contentRating f)) (same_string (contentRating a)) &&
  holds (f_isPaid f) (Bool.eqb (isPaid a)).

(** The conjunction of the criteria that are present, whatever they hold. *)
Definition meets_present (f : Filters) (a : App) : bool :=
  holds (f_category f) (same_string (category a)) &&
  holds (f_minRating f) (ge (rating_number (rating a))) &&
  holds (f_type f) (same_string (type a)) &&
  holds (f_contentRating f) (same_string (contentRating a)) &&
  holds (f_isPaid f) (Bool.eqb (isPaid a)).

Definition no_criteria : Filters :=
  {| f_category := None; f_minRating := None; f_type := None;
     f_contentRating := None; f_isPaid := None |}.

(** A record of category [c] with nothing else filled in. *)
Definition app_of_category (c : string) : App :=
  {| app := Some "X"; category := Some c; rating := None; reviews := 0%float;
     size := None; sizeBytes := None; installs := None; installsNumber := 0%float;
     installsCategory := "0-1K"; type := None; price := VUndefined;
     priceNumber := 0%float; contentRating := None; genres := None;
     lastUpdated := None; currentVersion := None; androidVersion := None;
     isPaid := false; hasRating := VNum NaN; isPopular := false |}.

(** What a step of [Store.filterApps] keeps true: the arrays of the store
    [h] are where and what they were, and the current array is a new one
    that holds [l]. *)
Definition extends (h : Store.store) (l : list App) (st : Store.store * Store.ref) : Prop :=
  List.length h <= snd st < List.length (fst st) /\
  (forall r, r < List.length h -> Store.read (fst st) r = Store.read h r) /\
  Store.read (fst st) (snd st) = l.

End Criteria.

(** *** Statistics *)

Module Stats.
Import Js StatisticalAnalysis.

(** An element that the cleaning drops: [null], [undefined] or [NaN]. *)
Definition is_missing (v : entry) : Prop :=
  match v with
  | ENull | EUndefined => True
  | ENum n => isNaN n = true
  end.

(** Some numeric field of the statistics is [NaN]. *)
Definition has_NaN (s : BasicStats) : bool :=
  isNaN (count s) || isNaN (mean s) || isNaN (median s) ||
  match mode s with Some m => existsb isNaN m | None => false end ||
  isNaN (min s) || isNaN (max s) || isNaN (std s) || isNaN (variance s) ||
  isNaN (q1 s) || isNaN (q3 s) || isNaN (iqr s).

(** The sum of a list, added from left to right. *)
Definition sum_list (l : list number) : number :=
  match l with
  | [] => 0%float
  | x :: r => fold_left (fun s v => (s + v)%float) r x
  end.

Definition arithmetic_mean (l : list number) : number :=
  (sum_list l / of_nat (List.length l))%float.

Definition squared_deviations (l : list number) : list number :=
  map (fun v => ((v - arithmetic_mean l) * (v - arithmetic_mean l))%float) l.

(** The variance of a sample: the squared deviations over [n - 1]. *)
Definition sample_variance (l : list number) : number :=
  (sum_list (squared_deviations l) / of_nat (List.length l - 1))%float.


(** How often [v] occurs in [l]. *)
Definition frequency (l : list number) (v : number) : nat :=
  List.length (filter (fun u => eq u v) l).

(** [v] occurs in [l] at least as often as every value. *)
Definition most_frequent (l : list number) (v : number) : Prop :=
  forall w, frequency l w <= frequency l v.

(** The count that the table of [math.mode] holds for [v]. *)
Fixpoint lookup_count (count : list (number * nat)) (v : number) : nat :=
  match count with
  | [] => 0
  | (k, c) :: r => if eq k v then c else lookup_count r v
  end.

(** The table of [math.mode] counts the values [p]. *)
Definition table_of (p : list number) (count : list (number * nat)) : Prop :=
  forall w, lookup_count count w = frequency p w.

(** What the loop of [math.mode] keeps true after the values [p]: [max] is
    the greatest frequency, and [mode] holds the values that have it. *)
Definition mode_invariant (p : list number) (mode : list number) (max : nat) : Prop :=
  (forall w, frequency p w <= max) /\
  (forall v, In v mode -> In v p /\ frequency p v = max) /\
  (forall w, In w p -> frequency p w = max -> exists v, In v mode /\ eq v w = true) /\
  ((p = [] /\ max = 0) \/ exists u, In u p /\ frequency p u = max).

(** The coefficient of Pearson by the sums, in doubles. *)
Definition pearson (xs ys : list number) : number :=
  let n := of_nat (List.length xs) in
  let sx := sum_list xs in
  let sy := sum_list ys in
  let sxy := sum_list (0%float :: map (fun p => (fst p * snd p)%float) (combine xs ys)) in
  let sxx := sum_list (map (fun x => (x * x)%float) xs) in
  let syy := sum_list (map (fun y => (y * y)%float) ys) in
  ((n * sxy - sx * sy) / sqrt ((n * sxx - sx * sx) * (n * syy - sy * sy)))%float.

(** The radicand of the coefficient. *)
Definition pearson_radicand (xs ys : list number) : number :=
  let n := of_nat (List.length xs) in
  let sx := sum_list xs in
  let sy := sum_list ys in
  let sxx := sum_list (map (fun x => (x * x)%float) xs) in
  let syy := sum_list (map (fun y => (y * y)%float) ys) in
  ((n * sxx - sx * sx) * (n * syy - sy * sy))%float.

(** What [calculateCorrelation] answers when at least two pairs remain. *)
Definition guarded_pearson (xs ys : list number) : number :=
  if lt (pearson_radicand xs ys) 0%float then 0%float
  else if isNaN (pearson xs ys) then 0%float
  else pearson xs ys.

End Stats.

(** *** Raw rows *)

Module Rows.
Import Js.

(** A cell that holds text or nothing. *)
Definition text_cell (v : value) : Prop :=
  match v with
  | VStr _ | VUndefined | VNull => True
  | VBool _ | VNum _ => False
  end.

(** A row whose cells all hold text or nothing. *)
Definition text_row (r : data) : Prop :=
  match r with
  | Obj fields => Forall (fun p => text_cell (snd p)) fields
  | _ => False
  end.

End Rows.

(** *** Duplicates *)

Module Dedup.
Import Js DataProcessor.

(** [b] stands in [apps] before every record of its name that has as many
    reviews, and no record of its name has more. *)
Definition most_reviewed_first (apps : list App) (b : App) : Prop :=
  exists l1 l2,
    apps = (l1 ++ b :: l2)%list /\
    (forall a, In a l1 -> name_key a = name_key b -> lt (reviews a) (reviews b) = true) /\
    (forall a, In a l2 -> name_key a = name_key b -> le (reviews a) (reviews b) = true).

(** A record of a name and a number of reviews, with nothing else filled
    in but a category. *)
Definition app_with (name : string) (n : number) (c : string) : App :=
  {| app := Some name; category := Some c; rating := None; reviews := n;
     size := None; sizeBytes := None; installs := None; installsNumber := 0%float;
     installsCategory := "0-1K"; type := None; price := VUndefined;
     priceNumber := 0%float; contentRating := None; genres := None;
     lastUpdated := None; currentVersion := None; androidVersion := None;
     isPaid := false; hasRating := VNum NaN; isPopular := false |}.

(** The loop of [maxBy] after a non-empty run [p] of elements whose
    criterion is not [NaN]: it holds the first of the greatest. *)
Definition first_greatest {A} (f : A -> number) (p : list A) (b : A) : Prop :=
  exists l1 l2,
    p = (l1 ++ b :: l2)%list /\
    (forall a, In a l1 -> lt (f a) (f b) = true) /\
    (forall a, In a l2 -> le (f a) (f b) = true).

(** The group of a key in an object of groups. *)
Fixpoint find_group {A} (k : string) (o : Lodash.object (list A)) : option (list A) :=
  match o with
  | [] => None
  | (k', g) :: r => if String.eqb k' k then Some g else find_group k r
  end.

(** The elements of [l] whose key is [k], as a group: none is no group. *)
Definition group_of {A} (key : A -> string) (l : list A) (k : string) : option (list A) :=
  match filter (fun a => String.eqb (key a) k) l with
  | [] => None
  | g => Some g
  end.

End Dedup.

(** * Properties *)

(** ** The order of the numbers *)

Section NumberOrder.

Lemma SFcompare_key (a b : spec_float) :
  SFcompare a b =
  match Key.of_spec a, Key.of_spec b with
  | Some ka, Some kb => Some (Key.compare ka kb)
  | _, _ => None
  end.
Proof.
  destruct a as [[]|[]| |[] m1 e1], b as [[]|[]| |[] m2 e2]; cbn; try reflexivity.
  change (Pos.compare_cont Eq m1 m2) with (Pos.compare m1 m2).
  rewrite Z.compare_opp, (Z.compare_antisym e1 e2).
  destruct (e1 ?= e2)%Z; reflexivity.
Qed.

Lemma compare_ltb (a b : Key.key) :
  match Key.compare a b with Lt => true | _ => false end = Key.ltb a b.
Proof.
  destruct a as [[c1 e1] m1], b as [[c2 e2] m2]; cbn.
  destruct (Z.compare_spec c1 c2), (Z.compare_spec e1 e2), (Z.compare_spec m1 m2);
    symmetry;
    repeat match goal with
    | |- context [(?x <? ?y)%Z] => destruct (Z.ltb_spec x y)
    | |- context [(?x =? ?y)%Z] => destruct (Z.eqb_spec x y)
    end; cbn; try reflexivity; lia.
Qed.

Lemma compare_eqb (a b : Key.key) :
  match Key.compare a b with Eq => true | _ => false end = Key.eqb a b.
Proof.
  destruct a as [[c1 e1] m1], b as [[c2 e2] m2]; cbn.
  destruct (Z.compare_spec c1 c2), (Z.compare_spec e1 e2), (Z.compare_spec m1 m2);
    symmetry;
    repeat match goal with
    | |- context [(?x =? ?y)%Z] => destruct (Z.eqb_spec x y)
    end; cbn; try reflexivity; lia.
Qed.

Lemma compare_leb (a b : Key.key) :
  match Key.compare a b with Lt | Eq => true | Gt => false end = Key.ltb a b || Key.eqb a b.
Proof.
  rewrite <- compare_ltb, <- compare_eqb. destruct (Key.compare a b); reflexivity.
Qed.

Lemma lt_key (x y : Js.number) :
  Js.lt x y = Key.lift Key.ltb (Key.of_number x) (Key.of_number y).
Proof.
  unfold Js.lt, Key.lift, Key.of_number. rewrite ltb_spec. unfold SFltb.
  rewrite SFcompare_key.
  destruct (Key.of_spec (Prim2SF x)), (Key.of_spec (Prim2SF y)); try reflexivity.
  apply compare_ltb.
Qed.

Lemma eq_key (x y : Js.number) :
  Js.eq x y = Key.lift Key.eqb (Key.of_number x) (Key.of_number y).
Proof.
  unfold Js.eq, Key.lift, Key.of_number. rewrite eqb_spec. unfold SFeqb.
  rewrite SFcompare_key.
  destruct (Key.of_spec (Prim2SF x)), (Key.of_spec (Prim2SF y)); try reflexivity.
  apply compare_eqb.
Qed.

Lemma le_key (x y : Js.number) :
  Js.le x y =
  Key.lift (fun a b => Key.ltb a b || Key.eqb a b) (Key.of_number x) (Key.of_number y).
Proof.
  unfold Js.le, Key.lift, Key.of_number. rewrite leb_spec. unfold SFleb.
  rewrite SFcompare_key.
  destruct (Key.of_spec (Prim2SF x)), (Key.of_spec (Prim2SF y)); try reflexivity.
  apply compare_leb.
Qed.

Lemma gt_key (x y : Js.number) :
  Js.gt x y = Key.lift Key.ltb (Key.of_number y) (Key.of_number x).
Proof. apply lt_key. Qed.

Lemma ge_key (x y : Js.number) :
  Js.ge x y =
  Key.lift (fun a b => Key.ltb a b || Key.eqb a b) (Key.of_number y) (Key.of_number x).
Proof. apply le_key. Qed.

Lemma isNaN_key (x : Js.number) :
  Js.isNaN x = match Key.of_number x with None => true | Some _ => false end.
Proof.
  unfold Js.isNaN, is_nan. fold (Js.eq x x). rewrite eq_key.
  destruct (Key.of_number x) as [[[c e] m]|]; cbn; try reflexivity.
  rewrite !Z.eqb_refl. reflexivity.
Qed.

Lemma is_zero_key (x : Js.number) :
  is_zero x = Key.lift Key.eqb (Key.of_number x) (Some (0, 0, 0)%Z).
Proof.
  unfold is_zero. fold (Js.eq x zero). rewrite eq_key. reflexivity.
Qed.

End NumberOrder.

(** Turns the comparisons of the goal and of the hypotheses into linear
    arithmetic over the keys of the numbers involved. *)
Ltac key_of x :=
  let c := fresh "c" in let e := fresh "e" in let m := fresh "m" in
  let K := fresh "K" in
  destruct (Key.of_number x) as [[[c e] m]|] eqn:K.

Ltac order_rewrite :=
  rewrite ?lt_key, ?le_key, ?gt_key, ?ge_key, ?eq_key, ?isNaN_key, ?is_zero_key in *.

Ltac order_props :=
  cbn [Key.lift Key.ltb Key.eqb] in *;
  repeat first
    [ rewrite orb_true_iff in * | rewrite andb_true_iff in *
    | rewrite orb_false_iff in * | rewrite andb_false_iff in *
    | rewrite negb_true_iff in * | rewrite negb_false_iff in *
    | rewrite Z.ltb_lt in * | rewrite Z.eqb_eq in *
    | rewrite Z.ltb_ge in * | rewrite Z.eqb_neq in * ].

(** Evaluates the key of a number that is a constant. *)
Ltac key_const x :=
  let k := eval vm_compute in (Key.of_number x) in
  lazymatch k with
  | Some (_, _, _) => change (Key.of_number x) with k in *
  | None => change (Key.of_number x) with k in *
  end.

Ltac key_consts :=
  repeat match goal with
  | |- context [Key.of_number ?x] => key_const x
  | H : context [Key.of_number ?x] |- _ => key_const x
  end.

Ltac split_comparisons :=
  repeat match goal with
    | |- context [(?x <? ?y)%Z] => destruct (Z.ltb_spec x y)
    | |- context [(?x =? ?y)%Z] => destruct (Z.eqb_spec x y)
    end; cbn [andb orb negb]; try reflexivity; try lia.

Section OrderLaws.

Lemma not_gt_le (x y : Js.number) :
  Js.isNaN x = false -> Js.isNaN y = false -> Js.gt x y = false -> Js.le x y = true.
Proof.
  order_rewrite. key_of x; key_of y; order_props; try discriminate. lia.
Qed.

Lemma le_trans (x y z : Js.number) :
  Js.le x y = true -> Js.le y z = true -> Js.le x z = true.
Proof.
  order_rewrite. key_of x; key_of y; key_of z; order_props; try discriminate. lia.
Qed.

Lemma lt_le_trans (x y z : Js.number) :
  Js.lt x y = true -> Js.le y z = true -> Js.lt x z = true.
Proof.
  order_rewrite. key_of x; key_of y; key_of z; order_props; try discriminate. lia.
Qed.

Lemma le_lt_trans (x y z : Js.number) :
  Js.le x y = true -> Js.lt y z = true -> Js.lt x z = true.
Proof.
  order_rewrite. key_of x; key_of y; key_of z; order_props; try discriminate. lia.
Qed.

Lemma gt_le (x y : Js.number) : Js.gt x y = true -> Js.le y x = true.
Proof.
  order_rewrite. key_of x; key_of y; order_props; try discriminate. lia.
Qed.

Lemma le_refl (x : Js.number) : Js.isNaN x = false -> Js.le x x = true.
Proof.
  order_rewrite. key_of x; order_props; try discriminate. lia.
Qed.

Lemma eq_refl_number (x : Js.number) : Js.isNaN x = false -> Js.eq x x = true.
Proof.
  order_rewrite. key_of x; order_props; try discriminate. lia.
Qed.

Lemma eq_sym_number (x y : Js.number) : Js.eq x y = Js.eq y x.
Proof.
  order_rewrite. key_of x; key_of y; cbn; try reflexivity.
  rewrite (Z.eqb_sym c), (Z.eqb_sym e), (Z.eqb_sym m). reflexivity.
Qed.

Lemma eq_trans_number (x y z : Js.number) :
  Js.eq x y = true -> Js.eq y z = true -> Js.eq x z = true.
Proof.
  order_rewrite. key_of x; key_of y; key_of z; order_props; try discriminate. lia.
Qed.

Lemma or_num_not_NaN (x : Js.number) : Js.isNaN (Js.or_num x 0%float) = false.
Proof.
  unfold Js.or_num, Js.truthy_num, Js.isNaN. destruct (is_nan x) eqn:E; [reflexivity|].
  destruct (is_zero x); [reflexivity | exact E].
Qed.

End OrderLaws.

(** ** Numeric strings and [convertSizeToBytes] *)

Section NumericStrings.
Import Js Literal DataProcessor.

Lemma span_digits_app (d t : string) :
  Lodash.all_digits d = true -> head_not_digit t -> span_digits (d ++ t) = (d, t).
Proof.
  intros Hd Ht. induction d as [|c d IH]; cbn in *.
  - destruct t as [|c t]; cbn in *; [reflexivity | now rewrite Ht].
  - apply andb_true_iff in Hd as [Hc Hd]. rewrite Hc, (IH Hd). reflexivity.
Qed.

Lemma span_digits_split (s : string) :
  let (d, r) := span_digits s in
  s = d ++ r /\ Lodash.all_digits d = true /\ head_not_digit r.
Proof.
  induction s as [|c s IH]; cbn.
  - auto.
  - destruct (is_digit c) eqn:Hc.
    + destruct (span_digits s) as [d r]. destruct IH as (-> & Hd & Hr).
      cbn. rewrite Hc, Hd. auto.
    + cbn. auto.
Qed.

Lemma append_empty_r (s : string) : s ++ "" = s.
Proof. induction s as [|c s IH]; cbn; [reflexivity | now rewrite IH]. Qed.

Lemma append_assoc' (a b c : string) : (a ++ b) ++ c = a ++ (b ++ c).
Proof. induction a as [|x a IH]; cbn; [reflexivity | now rewrite IH]. Qed.

Lemma scan_sign_split (s : string) :
  let (neg, r) := scan_sign s in
  exists sg, s = sign_string sg ++ r /\ neg = is_minus sg.
Proof.
  destruct s as [|c r]; cbn.
  - now exists None.
  - destruct (Ascii.eqb_spec c "+") as [->|_]; [now exists (Some false)|].
    destruct (Ascii.eqb_spec c "-") as [->|_]; [now exists (Some true)|].
    now exists None.
Qed.

Lemma scan_exponent_split (s : string) (ex : option (bool * string)) :
  scan_exponent s = (ex, "") ->
  exists ex', s = exponent_string ex' /\ ex = read_exponent ex' /\ well_formed_exponent ex'.
Proof.
  destruct s as [|c r]; cbn.
  - intros [= <-]. now exists None.
  - destruct (is_exp_mark c) eqn:Hc; [|discriminate].
    pose proof (scan_sign_split r) as Hs. destruct (scan_sign r) as [neg r1].
    destruct Hs as (sg & -> & ->).
    pose proof (span_digits_split r1) as Hd. destruct (span_digits r1) as [d r2].
    destruct Hd as (-> & Hd & _).
    destruct (is_empty d) eqn:He; [discriminate|].
    intros [= <- ->]. exists (Some (c, sg, d)). cbn.
    rewrite append_empty_r. auto.
Qed.

Lemma numeric_string_render (v : string) :
  is_numeric_string v = true ->
  exists sg ip frac ex, well_formed ip frac ex /\ v = render sg ip frac ex.
Proof.
  unfold is_numeric_string, scan_literal.
  pose proof (scan_sign_split v) as Hs. destruct (scan_sign v) as [neg r].
  destruct Hs as (sg & -> & ->). unfold scan_unsigned.
  destruct (prefix "Infinity" r); [discriminate|].
  pose proof (span_digits_split r) as Hd. destruct (span_digits r) as [ip r1].
  destruct Hd as (-> & Hip & _).
  assert (Hno : match (if is_empty ip then None
                       else let (ex, r4) := scan_exponent r1 in
                            Some (LDecimal (is_minus sg) ip "" ex, r4))
                with Some (LDecimal _ _ _ _, "") => true | _ => false end = true ->
                exists frac ex, well_formed ip frac ex /\ r1 = fraction_string frac ++ exponent_string ex).
  { destruct (is_empty ip) eqn:Hi; [discriminate|].
    destruct (scan_exponent r1) as [ex r4] eqn:Hx. destruct r4; [|discriminate]. intros _.
    apply scan_exponent_split in Hx as (ex' & -> & -> & Hw).
    exists None, ex'. repeat split; auto. }
  destruct r1 as [|c r2].
  - intros H. destruct (Hno H) as (frac & ex & Hw & E).
    exists sg, ip, frac, ex. split; [exact Hw|]. unfold render. now rewrite <- E.
  - destruct (Ascii.eqb_spec c ".") as [->|_].
    + clear Hno.
      pose proof (span_digits_split r2) as Hd. destruct (span_digits r2) as [fp r3].
      destruct Hd as (-> & Hfp & _).
      destruct (is_empty ip && is_empty fp) eqn:Hi; [discriminate|].
      destruct (scan_exponent r3) as [ex r4] eqn:Hx. destruct r4; [|discriminate]. intros _.
      apply scan_exponent_split in Hx as (ex' & -> & -> & Hw).
      exists sg, ip, (Some fp), ex'. split; [repeat split; auto|]. reflexivity.
    + intros H. destruct (Hno H) as (frac & ex & Hw & E).
      exists sg, ip, frac, ex. split; [exact Hw|]. unfold render. now rewrite <- E.
Qed.

Lemma exp_mark_not_digit (c : ascii) : is_exp_mark c = true -> is_digit c = false.
Proof.
  unfold is_exp_mark, is_digit. intros H.
  apply orb_true_iff in H as [H|H]; apply Nat.eqb_eq in H; rewrite H; reflexivity.
Qed.

Lemma exp_mark_not_dot (c : ascii) : is_exp_mark c = true -> Ascii.eqb c "." = false.
Proof.
  intros H. destruct (Ascii.eqb_spec c ".") as [->|]; [discriminate H | reflexivity].
Qed.

Lemma digit_not_sign (c : ascii) :
  is_digit c = true -> Ascii.eqb c "+" = false /\ Ascii.eqb c "-" = false.
Proof.
  intros H. split.
  - destruct (Ascii.eqb_spec c "+") as [->|]; [discriminate H | reflexivity].
  - destruct (Ascii.eqb_spec c "-") as [->|]; [discriminate H | reflexivity].
Qed.

Lemma scan_sign_digits (d t : string) :
  Lodash.all_digits d = true -> is_empty d = false -> scan_sign (d ++ t) = (false, d ++ t).
Proof.
  destruct d as [|c d]; [discriminate|]. cbn. intros H _.
  apply andb_true_iff in H as [H _]. destruct (digit_not_sign c H) as [-> ->]. reflexivity.
Qed.

Lemma scan_exponent_render (ex : option (ascii * option bool * string)) (t : string) :
  well_formed_exponent ex -> inert t ->
  scan_exponent (exponent_string ex ++ t) = (read_exponent ex, t).
Proof.
  intros Hw Ht. destruct ex as [[[mark sg] d]|]; cbn in *.
  - destruct Hw as (Hm & Hd & He). rewrite Hm.
    assert (Hs : scan_sign ((sign_string sg ++ d) ++ t) = (is_minus sg, d ++ t)).
    { destruct sg as [[]|]; cbn; try reflexivity. now apply scan_sign_digits. }
    rewrite Hs, span_digits_app, He; auto.
    destruct t; cbn in *; tauto.
  - destruct t as [|c t]; cbn in *; [reflexivity|].
    destruct Ht as (_ & _ & ->). reflexivity.
Qed.

Lemma prefix_Infinity (s : string) :
  head_is (fun c => is_digit c || Ascii.eqb c ".") s = true -> prefix "Infinity" s = false.
Proof.
  destruct s as [|c s]; [reflexivity|]. cbn [prefix head_is]. intros H.
  destruct (ascii_dec "I" c) as [<-|]; [discriminate H | reflexivity].
Qed.

Lemma scan_unsigned_render (neg : bool) (ip : string) (frac : option string)
  (ex : option (ascii * option bool * string)) (t : string) :
  well_formed ip frac ex -> inert t ->
  scan_unsigned neg (ip ++ fraction_string frac ++ exponent_string ex ++ t) =
  Some (LDecimal neg ip (match frac with Some fp => fp | None => "" end) (read_exponent ex), t).
Proof.
  intros (Hip & Hfrac & Hex) Ht. unfold scan_unsigned.
  assert (Hx : head_not_digit (exponent_string ex ++ t)).
  { destruct ex as [[[mark sg] d]|]; cbn in *.
    - now apply exp_mark_not_digit.
    - destruct t; cbn in *; tauto. }
  assert (Hxd : head_is (fun c => Ascii.eqb c ".") (exponent_string ex ++ t) = false).
  { destruct ex as [[[mark sg] d]|]; cbn in *.
    - now apply exp_mark_not_dot.
    - destruct t as [|c t]; cbn in *; [reflexivity|].
      destruct Ht as (_ & Hc & _). now destruct (Ascii.eqb_spec c "."). }
  rewrite prefix_Infinity.
  2:{ destruct ip as [|c ip]; cbn in *.
      - destruct frac as [fp|]; cbn; [reflexivity | discriminate].
      - apply andb_true_iff in Hip as [-> _]. reflexivity. }
  destruct frac as [fp|]; cbn [fraction_string].
  - destruct Hfrac as (Hfp & Hne).
    replace (String "." fp ++ exponent_string ex ++ t)
      with (String "." (fp ++ exponent_string ex ++ t)) by reflexivity.
    rewrite span_digits_app by (cbn; auto). cbn.
    rewrite span_digits_app, Hne, scan_exponent_render by auto. reflexivity.
  - cbn [append]. rewrite span_digits_app by auto. rewrite Hfrac.
    rewrite scan_exponent_render by auto.
    destruct (exponent_string ex ++ t) as [|c r]; [reflexivity|].
    cbn in Hxd. rewrite Hxd. reflexivity.
Qed.

Lemma scan_literal_render (sg : option bool) (ip : string) (frac : option string)
  (ex : option (ascii * option bool * string)) (t : string) :
  well_formed ip frac ex -> inert t ->
  scan_literal (render sg ip frac ex ++ t) = Some (read sg ip frac ex, t).
Proof.
  intros Hw Ht. unfold scan_literal, render, read.
  rewrite !append_assoc'.
  assert (Hs : scan_sign (sign_string sg ++ ip ++ fraction_string frac ++ exponent_string ex ++ t)
               = (is_minus sg, ip ++ fraction_string frac ++ exponent_string ex ++ t)).
  { destruct sg as [[]|]; cbn; try reflexivity.
    destruct Hw as (Hip & Hfrac & _). destruct ip as [|c ip]; cbn in *.
    - destruct frac as [fp|]; cbn; [reflexivity | discriminate].
    - apply andb_true_iff in Hip as [Hc _]. destruct (digit_not_sign c Hc) as [-> ->].
      reflexivity. }
  rewrite Hs. now apply scan_unsigned_render.
Qed.

Lemma toLowerCase_app (a b : string) :
  toLowerCase (a ++ b) = toLowerCase a ++ toLowerCase b.
Proof. induction a as [|c a IH]; cbn; [reflexivity | now rewrite IH]. Qed.

Lemma lower_digit (c : ascii) : is_digit c = true -> lower_char c = c.
Proof.
  unfold is_digit, lower_char. intros H. apply andb_true_iff in H as [H1 H2].
  apply Nat.leb_le in H1, H2.
  destruct (Nat.leb_spec 65 (code c)); [lia|].
  destruct (Nat.leb_spec 192 (code c)); [lia|]. reflexivity.
Qed.

Lemma toLowerCase_digits (d : string) : Lodash.all_digits d = true -> toLowerCase d = d.
Proof.
  induction d as [|c d IH]; cbn; [reflexivity|]. intros H.
  apply andb_true_iff in H as [Hc Hd]. now rewrite lower_digit, IH.
Qed.

Lemma lower_exp_mark (c : ascii) : is_exp_mark c = true -> lower_char c = "e"%char.
Proof.
  unfold is_exp_mark, code. intros H. apply orb_true_iff in H as [H|H];
    apply Nat.eqb_eq in H; apply (f_equal ascii_of_nat) in H;
    rewrite ascii_nat_embedding in H; subst c; reflexivity.
Qed.

Lemma toLowerCase_render (sg : option bool) (ip : string) (frac : option string)
  (ex : option (ascii * option bool * string)) :
  well_formed ip frac ex ->
  toLowerCase (render sg ip frac ex) = render sg ip frac (lower_exponent ex) /\
  well_formed ip frac (lower_exponent ex) /\
  read sg ip frac (lower_exponent ex) = read sg ip frac ex.
Proof.
  intros (Hip & Hfrac & Hex). split; [|split].
  - unfold render. rewrite !toLowerCase_app, (toLowerCase_digits ip Hip).
    f_equal; [destruct sg as [[]|]; reflexivity|]. f_equal. f_equal.
    + destruct frac as [fp|]; cbn; [|reflexivity].
      destruct Hfrac as [Hfp _]. now rewrite toLowerCase_digits.
    + destruct ex as [[[mark s] d]|]; cbn; [|reflexivity].
      destruct Hex as (Hm & Hd & _).
      rewrite toLowerCase_app, (toLowerCase_digits d Hd), (lower_exp_mark mark Hm).
      f_equal. f_equal. destruct s as [[]|]; reflexivity.
  - repeat split; auto. destruct ex as [[[mark s] d]|]; cbn in *; tauto.
  - destruct ex as [[[mark s] d]|]; reflexivity.
Qed.

Lemma trimStart_render (sg : option bool) (ip : string) (frac : option string)
  (ex : option (ascii * option bool * string)) (t : string) :
  well_formed ip frac ex ->
  trimStart (render sg ip frac ex ++ t) = render sg ip frac ex ++ t.
Proof.
  intros (Hip & Hfrac & _). unfold render.
  destruct sg as [[]|]; try reflexivity. cbn [sign_string append].
  destruct ip as [|c ip].
  - destruct frac as [fp|]; [reflexivity | discriminate].
  - cbn in Hip. apply andb_true_iff in Hip as [Hc _]. cbn.
    assert (Hs : is_space c = false).
    { unfold is_digit in Hc. unfold is_space. apply andb_true_iff in Hc as [H1 H2].
      apply Nat.leb_le in H1, H2.
      destruct (Nat.leb_spec (code c) 13); [lia|].
      destruct (Nat.eqb_spec (code c) 32); [lia|].
      destruct (Nat.eqb_spec (code c) 160); [lia|].
      now rewrite andb_false_r. }
    now rewrite Hs.
Qed.

Lemma parseFloat_render (sg : option bool) (ip : string) (frac : option string)
  (ex : option (ascii * option bool * string)) (t : string) :
  well_formed ip frac ex -> inert t ->
  parseFloat_string (render sg ip frac ex ++ t) = literal_value (read sg ip frac ex).
Proof.
  intros Hw Ht. unfold parseFloat_string.
  now rewrite trimStart_render, scan_literal_render.
Qed.

Lemma includes_char (s : string) (x : ascii) :
  includes s (String x "") = occurs x s.
Proof.
  induction s as [|c s IH]; [reflexivity|]. cbn [includes prefix occurs].
  rewrite IH. destruct (ascii_dec x c) as [->|N].
  - rewrite Ascii.eqb_refl. destruct s; reflexivity.
  - destruct (Ascii.eqb_spec x c); [contradiction | reflexivity].
Qed.

Lemma occurs_app (x : ascii) (a b : string) :
  occurs x (a ++ b) = occurs x a || occurs x b.
Proof. induction a as [|c a IH]; cbn; [reflexivity | now rewrite IH, orb_assoc]. Qed.

Lemma occurs_digits (x : ascii) (d : string) :
  is_digit x = false -> Lodash.all_digits d = true -> occurs x d = false.
Proof.
  intros Hx. induction d as [|c d IH]; cbn; [reflexivity|]. intros H.
  apply andb_true_iff in H as [Hc Hd]. rewrite (IH Hd).
  destruct (Ascii.eqb_spec x c) as [->|]; [congruence | reflexivity].
Qed.

Lemma occurs_render (x : ascii) (sg : option bool) (ip : string) (frac : option string)
  (ex : option (ascii * option bool * string)) :
  plain_letter x -> well_formed ip frac (lower_exponent ex) ->
  occurs x (render sg ip frac (lower_exponent ex)) = false.
Proof.
  intros (Hd & Hp & Hm & Hdot & He) (Hip & Hfrac & Hex).
  assert (Hsign : forall s, occurs x (sign_string s) = false).
  { intros [[]|]; cbn; try reflexivity; rewrite orb_false_r.
    - now destruct (Ascii.eqb_spec x "-").
    - now destruct (Ascii.eqb_spec x "+"). }
  unfold render. rewrite !occurs_app, Hsign, (occurs_digits x ip Hd Hip). cbn [orb].
  apply orb_false_iff. split.
  - destruct frac as [fp|]; cbn; [|reflexivity]. destruct Hfrac as [Hfp _].
    rewrite (occurs_digits x fp Hd Hfp). now destruct (Ascii.eqb_spec x ".").
  - destruct ex as [[[mark s] d]|]; cbn in *; [|reflexivity].
    destruct Hex as (_ & Hdd & _).
    rewrite occurs_app, Hsign, (occurs_digits x d Hd Hdd).
    now destruct (Ascii.eqb_spec x "e").
Qed.

Lemma last_char_eq (a b : string) (c d : ascii) :
  a ++ String c "" = b ++ String d "" -> c = d.
Proof.
  revert b. induction a as [|x a IH]; intros [|y b]; cbn; intros [= ]; subst; auto.
  - destruct b; discriminate.
  - destruct a; discriminate.
  - eauto.
Qed.

Lemma is_empty_app (a : string) (c : ascii) : is_empty (a ++ String c "") = false.
Proof. destruct a; reflexivity. Qed.

(** The common part: what [convertSizeToBytes] sees of [v] followed by a
    unit letter [c] whose lower case is [u]. *)
Lemma size_string_facts (v : string) (c u : ascii) :
  is_numeric_string v = true ->
  lower_char c = u -> inert (String u "") -> u <> "e"%char ->
  let sizeStr := toLowerCase (v ++ String c "") in
  truthy (VStr (v ++ String c "")) = true /\
  is_string (VStr (v ++ String c "")) "Varies with device" = false /\
  parseFloat_string sizeStr = parseFloat_string v /\
  forall x, plain_letter x -> includes sizeStr (String x "") = Ascii.eqb x u.
Proof.
  intros Hv Hc Hu Hne. cbn zeta.
  destruct (numeric_string_render v Hv) as (sg & ip & frac & ex & Hw & ->).
  destruct (toLowerCase_render sg ip frac ex Hw) as (Hl & Hw' & Hr).
  rewrite toLowerCase_app, Hl. cbn [toLowerCase]. rewrite Hc.
  split; [|split; [|split]].
  - cbn. now rewrite is_empty_app.
  - cbn. destruct (String.eqb_spec (render sg ip frac ex ++ String c "") "Varies with device")
      as [E|]; [|reflexivity].
    change "Varies with device" with ("Varies with devic" ++ String "e" "") in E.
    apply last_char_eq in E. subst c. exfalso. apply Hne. now rewrite <- Hc.
  - rewrite (parseFloat_render sg ip frac _ _ Hw' Hu), Hr.
    rewrite <- (append_empty_r (render sg ip frac ex)).
    now rewrite (parseFloat_render sg ip frac ex "" Hw I).
  - intros x Hx. rewrite includes_char, occurs_app, (occurs_render x sg ip frac ex Hx Hw').
    cbn. now rewrite orb_false_r.
Qed.

Ltac plain := repeat split; first [assumption | reflexivity | discriminate].

Lemma convertSizeToBytes_unit (v : string) (c u : ascii) :
  is_numeric_string v = true ->
  lower_char c = u -> inert (String u "") -> u <> "e"%char ->
  convertSizeToBytes (VStr (v ++ String c "")) =
  let x := parseFloat_string v in
  if Ascii.eqb "k" u then Some (x * 1024)%float
  else if Ascii.eqb "m" u then Some (x * 1024 * 1024)%float
  else if Ascii.eqb "g" u then Some (x * 1024 * 1024 * 1024)%float
  else Some x.
Proof.
  intros Hv Hc Hu Hne.
  destruct (size_string_facts v c u Hv Hc Hu Hne) as (Ht & Hd & Hp & Hi).
  unfold convertSizeToBytes. rewrite Ht, Hd. cbn [negb orb ToString].
  rewrite Hp, !Hi by plain. reflexivity.
Qed.

(** C8. For a numeric string [v] followed by a unit letter, in either case,
    [convertSizeToBytes] answers the number that [parseFloat] reads from [v],
    multiplied by 1024 once for [k], twice for [m] and three times for [g];
    for ["Varies with device"] and for an empty input (the empty string,
    [undefined], [null]) it answers [null]. *)
Theorem convertSizeToBytes_units (v : string) (c : ascii) :
  is_numeric_string v = true ->
  let x := parseFloat_string v in
  (c = "k"%char \/ c = "K"%char ->
   convertSizeToBytes (VStr (v ++ String c "")) = Some (x * 1024)%float) /\
  (c = "m"%char \/ c = "M"%char ->
   convertSizeToBytes (VStr (v ++ String c "")) = Some (x * 1024 * 1024)%float) /\
  (c = "g"%char \/ c = "G"%char ->
   convertSizeToBytes (VStr (v ++ String c "")) = Some (x * 1024 * 1024 * 1024)%float) /\
  convertSizeToBytes (VStr "Varies with device") = None /\
  convertSizeToBytes (VStr "") = None /\
  convertSizeToBytes VUndefined = None /\
  convertSizeToBytes VNull = None.
Proof.
  intros Hv x.
  repeat split; try reflexivity.
  - intros [-> | ->]; now rewrite (convertSizeToBytes_unit v _ "k") by plain.
  - intros [-> | ->]; now rewrite (convertSizeToBytes_unit v _ "m") by plain.
  - intros [-> | ->]; now rewrite (convertSizeToBytes_unit v _ "g") by plain.
Qed.

(** The size ["8.7M"] of the documentation of the function. *)
Lemma convertSizeToBytes_units_witness :
  convertSizeToBytes (VStr "8.7M") = Some (parseFloat_string "8.7" * 1024 * 1024)%float.
Proof.
  exact (proj1 (proj2 (convertSizeToBytes_units "8.7" "M" eq_refl)) (or_intror eq_refl)).
Defined.

End NumericStrings.

(** ** [categorizeInstalls] after [convertInstallsToNumber] *)

Section Installs.
Import Js Constants DataProcessor.

Lemma ge_negb_lt (n t : number) :
  isNaN n = false -> isNaN t = false -> ge n t = negb (lt n t).
Proof.
  order_rewrite. key_of n; key_of t; try discriminate. intros _ _.
  cbn [Key.lift Key.ltb Key.eqb]. split_comparisons.
Qed.

Lemma le_not_NaN (x y : number) : le x y = true -> isNaN y = false.
Proof. order_rewrite. key_of x; key_of y; cbn; congruence. Qed.

Lemma lt_mono (n t1 t2 : number) :
  le t1 t2 = true -> lt n t1 = true -> lt n t2 = true.
Proof. intros H1 H2. exact (lt_le_trans _ _ _ H2 H1). Qed.

Ltac up E :=
  match type of E with
  | lt ?n ?t1 = true =>
      repeat match goal with
      | |- context [lt n ?t] => rewrite (lt_mono n t1 t eq_refl E)
      end
  end.

Ltac finish :=
  cbn [negb andb];
  refine (ex_intro _ _ (conj _ (conj eq_refl (conj eq_refl _))));
  [ cbn; auto 10 | discriminate ].

Lemma categorizeInstalls_bucket (n : number) :
  le 0%float n = true -> lt n Infinity = true -> exists r, one_bucket n r.
Proof.
  intros H0 Hinf.
  assert (Hn : isNaN n = false) by (apply (le_not_NaN _ _ H0)).
  unfold one_bucket, categorizeInstalls, INSTALL_RANGES, in_range.
  cbn [filter find Constants.min Constants.max Constants.label].
  rewrite !(ge_negb_lt n) by (assumption || reflexivity).
  assert (Hz : lt n 0%float = false).
  { revert H0. clear. order_rewrite. key_of n; key_consts; order_props; try discriminate. lia. }
  rewrite Hz, Hinf.
  destruct (lt n 1000%float) eqn:E1; [ up E1; finish | ].
  destruct (lt n 10000%float) eqn:E2; [ up E2; finish | ].
  destruct (lt n 100000%float) eqn:E3; [ up E3; finish | ].
  destruct (lt n 1000000%float) eqn:E4; [ up E4; finish | ].
  destruct (lt n 10000000%float) eqn:E5; [ up E5; finish | ].
  destruct (lt n 100000000%float) eqn:E6; finish.
Qed.

Lemma lt_ge_false (n a t : number) :
  lt n a = true -> le a t = true -> ge n t = false.
Proof.
  order_rewrite. key_of n; key_of a; key_of t; order_props; try discriminate.
  cbn [Key.lift Key.ltb Key.eqb]. intros. split_comparisons.
Qed.

Lemma not_lt_mono (n t1 t2 : number) :
  le t1 t2 = true -> lt n t2 = false -> lt n t1 = false.
Proof.
  intros H1 H2. destruct (lt n t1) eqn:E; [|reflexivity].
  now rewrite (lt_mono n t1 t2 H1 E) in H2.
Qed.

(** Outside of [0 <= n < Infinity] no entry of the table holds [n]. *)
Lemma categorizeInstalls_outside (n : number) :
  lt n 0%float = true \/ lt n Infinity = false ->
  filter (in_range n) INSTALL_RANGES = [] /\ categorizeInstalls n = "Unknown".
Proof.
  unfold categorizeInstalls, INSTALL_RANGES, in_range.
  cbn [filter find Constants.min Constants.max Constants.label].
  intros [H | H].
  - repeat match goal with
           | |- context [ge n ?t] => rewrite (lt_ge_false n 0%float t H eq_refl)
           end.
    split; reflexivity.
  - repeat match goal with
           | |- context [lt n ?t] => rewrite (not_lt_mono n t Infinity eq_refl H)
           end.
    rewrite !andb_false_r. split; reflexivity.
Qed.

Lemma convertInstallsToNumber_not_NaN (v : value) :
  isNaN (convertInstallsToNumber v) = false.
Proof.
  unfold convertInstallsToNumber. destruct (negb (truthy v)); [reflexivity|].
  apply or_num_not_NaN.
Qed.

Lemma not_le_lt (x y : number) :
  isNaN x = false -> isNaN y = false -> le x y = false -> lt y x = true.
Proof.
  order_rewrite. key_of x; key_of y; try discriminate. intros _ _.
  cbn [Key.lift Key.ltb Key.eqb]. split_comparisons.
Qed.

(** C6, as the program has it. For every input string whose install count
    [n] is at least 0 and is not [Infinity], [categorizeInstalls n] is the
    label of exactly one entry of [INSTALL_RANGES], and is not ["Unknown"];
    for a count that is negative or [Infinity] no entry holds it and the
    answer is ["Unknown"]. *)
Theorem installs_round_trip (s : string) :
  let n := convertInstallsToNumber (VStr s) in
  (le 0%float n = true -> lt n Infinity = true -> exists r, one_bucket n r) /\
  (le 0%float n = false \/ lt n Infinity = false ->
   filter (in_range n) INSTALL_RANGES = [] /\ categorizeInstalls n = "Unknown").
Proof.
  intros n. split; [apply categorizeInstalls_bucket|].
  intros [H|H]; apply categorizeInstalls_outside; [left | now right].
  apply not_le_lt; [reflexivity | apply convertInstallsToNumber_not_NaN | exact H].
Qed.

Lemma installs_round_trip_witness :
  exists r, one_bucket (convertInstallsToNumber (VStr "10,000+")) r.
Proof. exact (proj1 (installs_round_trip "10,000+") eq_refl eq_refl). Defined.

(** C6 as stated fails: a string with a minus sign is read as a negative
    count, which no entry of the table holds. *)
Lemma installs_round_trip_counterexample :
  convertInstallsToNumber (VStr "-5") = (-5)%float /\
  filter (in_range (convertInstallsToNumber (VStr "-5"))) INSTALL_RANGES = [] /\
  categorizeInstalls (convertInstallsToNumber (VStr "-5")) = "Unknown".
Proof. repeat split; vm_compute; reflexivity. Qed.

(** The other way out of the table: a count too large for a double is
    [Infinity], which is not below the last bound. *)
Lemma installs_overflow :
  categorizeInstalls Infinity = "Unknown".
Proof. vm_compute. reflexivity. Qed.

End Installs.

(** ** [convertPriceToNumber] *)

Section Prices.
Import Js DataProcessor Price.

Lemma replace_dollar (s : string) : replace "$" "" s = without_first "$" s.
Proof.
  induction s as [|c s IH]; [reflexivity|].
  cbn [replace prefix without_first].
  destruct (ascii_dec "$" c) as [<-|N].
  - destruct s; reflexivity.
  - destruct (Ascii.eqb_spec c "$") as [->|_]; [contradiction|].
    now rewrite IH.
Qed.

Lemma convertPriceToNumber_string (s : string) :
  convertPriceToNumber (VStr s) =
  if is_free s then 0%float
  else or_num (parseFloat_string (without_first "$" s)) 0%float.
Proof.
  unfold convertPriceToNumber, is_free. cbn [truthy is_string ToString].
  rewrite negb_involutive, replace_dollar. reflexivity.
Qed.

(** C5, as the program has it. [convertPriceToNumber] answers 0 for
    ["Free"], ["0"] and the empty string; for every other string it removes
    the first dollar sign, wherever it stands, and parses the result as a
    float, answering 0 when nothing can be parsed; so a string that starts
    with a dollar sign is read as what follows it, and ["$4.99"] gives
    4.99. *)
#[warnings="-inexact-float"]
Theorem convertPriceToNumber_spec (s : string) :
  convertPriceToNumber (VStr "Free") = 0%float /\
  convertPriceToNumber (VStr "0") = 0%float /\
  convertPriceToNumber (VStr "") = 0%float /\
  convertPriceToNumber (VStr s) =
    (if is_free s then 0%float
     else or_num (parseFloat_string (without_first "$" s)) 0%float) /\
  convertPriceToNumber (VStr (String "$" s)) = or_num (parseFloat_string s) 0%float /\
  isNaN (convertPriceToNumber (VStr s)) = false /\
  convertPriceToNumber (VStr "$4.99") = 4.99%float.
Proof.
  repeat split; try reflexivity.
  - apply convertPriceToNumber_string.
  - rewrite convertPriceToNumber_string. reflexivity.
  - rewrite convertPriceToNumber_string. destruct (is_free s); [reflexivity|].
    apply or_num_not_NaN.
Qed.

(** C5 as stated fails: a dollar sign that is not at the start is removed
    too, so ["1$5"] is read as 15, where dropping a leading symbol and
    parsing gives 1. *)
Lemma convertPriceToNumber_counterexample :
  convertPriceToNumber (VStr "1$5") = 15%float /\
  price_as_specified "1$5" = 1%float.
Proof. split; vm_compute; reflexivity. Qed.

End Prices.

(** ** [filterApps] *)

Section Filtering.
Import Js DataProcessor Criteria.

Lemma filter_and {A} (p q : A -> bool) (l : list A) :
  filter p (filter q l) = filter (fun x => q x && p x) l.
Proof.
  induction l as [|x l IH]; [reflexivity|]. cbn.
  destruct (q x); cbn; [destruct (p x)|]; now rewrite IH.
Qed.

Lemma filter_all {A} (l : list A) : filter (fun _ => true) l = l.
Proof. induction l as [|x l IH]; [reflexivity|]. cbn. now rewrite IH. Qed.

Lemma filter_when {A} (b : bool) (p : A -> bool) (l : list A) :
  (if b then filter p l else l) = filter (fun x => if b then p x else true) l.
Proof. destruct b; [reflexivity | now rewrite filter_all]. Qed.

Lemma string_criterion (o : option string) (field : App -> option string) (l : list App) :
  match o with
  | Some c => if negb (is_empty c) then filter (fun a => same_string (field a) c) l else l
  | None => l
  end = filter (fun a => holds (active_string o) (same_string (field a))) l.
Proof.
  destruct o as [c|]; cbn; [|now rewrite filter_all].
  destruct (is_empty c); cbn; [now rewrite filter_all | reflexivity].
Qed.

Lemma number_criterion (o : option number) (l : list App) :
  match o with
  | Some m => if truthy_num m then filter (fun a => ge (rating_number (rating a)) m) l else l
  | None => l
  end = filter (fun a => holds (active_number o) (ge (rating_number (rating a)))) l.
Proof.
  destruct o as [m|]; cbn; [|now rewrite filter_all].
  destruct (truthy_num m); cbn; [reflexivity | now rewrite filter_all].
Qed.

Lemma bool_criterion (o : option bool) (l : list App) :
  match o with
  | Some p => filter (fun a => Bool.eqb (isPaid a) p) l
  | None => l
  end = filter (fun a => holds o (Bool.eqb (isPaid a))) l.
Proof. destruct o; cbn; [reflexivity | now rewrite filter_all]. Qed.

(** The criteria that constrain are conjoined. *)
Lemma filterApps_meets (apps : list App) (f : Filters) :
  filterApps apps f = filter (meets f) apps.
Proof.
  unfold filterApps.
  rewrite (string_criterion (f_category f) category).
  rewrite number_criterion, filter_and.
  rewrite (string_criterion (f_type f) type), filter_and.
  rewrite (string_criterion (f_contentRating f) contentRating), filter_and.
  rewrite bool_criterion, filter_and.
  reflexivity.
Qed.

Lemma filterApps_idempotent (apps : list App) (f : Filters) :
  filterApps (filterApps apps f) f = filterApps apps f.
Proof.
  rewrite !filterApps_meets, filter_and. apply filter_ext.
  intros a. apply andb_diag.
Qed.

Lemma read_alloc_old (h : Store.store) (a : list App) (r : Store.ref) :
  r < List.length h -> Store.read (fst (Store.alloc h a)) r = Store.read h r.
Proof. intros H. unfold Store.read, Store.alloc. cbn. now apply app_nth1. Qed.

Lemma read_alloc_new (h : Store.store) (a : list App) :
  Store.read (fst (Store.alloc h a)) (snd (Store.alloc h a)) = a.
Proof. unfold Store.read, Store.alloc. cbn. now rewrite nth_middle. Qed.

Lemma extends_alloc (h : Store.store) (l l' : list App) (st : Store.store * Store.ref) :
  extends h l st -> extends h l' (Store.alloc (fst st) l').
Proof.
  intros ((H1 & H2) & Hold & _). repeat split.
  - cbn. lia.
  - cbn. rewrite length_app. cbn. lia.
  - intros r Hr. rewrite read_alloc_old by lia. now apply Hold.
  - apply read_alloc_new.
Qed.

Lemma extends_guarded (h : Store.store) (l : list App) (b : bool) (p : App -> bool)
  (st : Store.store * Store.ref) :
  extends h l st -> extends h (if b then filter p l else l) (Store.guarded b p st).
Proof.
  intros H. unfold Store.guarded. destruct b; [|exact H].
  pose proof H as (_ & _ & <-). now apply extends_alloc with (l := Store.read (fst st) (snd st)).
Qed.

Lemma extends_initial (h : Store.store) (l : list App) :
  extends h l (Store.alloc h l).
Proof.
  repeat split.
  - cbn. lia.
  - cbn. rewrite length_app. cbn. lia.
  - intros r Hr. now apply read_alloc_old.
  - apply read_alloc_new.
Qed.

Lemma filterApps_store (h : Store.store) (apps : Store.ref) (f : Filters) :
  extends h (filterApps (Store.read h apps) f) (Store.filterApps h apps f).
Proof.
  unfold Store.filterApps, filterApps.
  destruct (f_category f), (f_minRating f), (f_type f), (f_contentRating f), (f_isPaid f);
    repeat first [ apply extends_guarded | apply (extends_guarded h _ true) ];
    apply extends_initial.
Qed.

(** C7, as the program has it. [filterApps] is idempotent; it keeps the
    records that meet every criterion whose value is truthy (and [isPaid]
    whenever it is not [undefined]), in their order; without criteria it
    keeps everything; and, with the arrays in a store, the call leaves the
    input array as it was and answers with a new one. *)
Theorem filterApps_spec (apps : list App) (f : Filters) :
  filterApps (filterApps apps f) f = filterApps apps f /\
  filterApps apps f = filter (meets f) apps /\
  filterApps apps no_criteria = apps /\
  forall (h : Store.store) (r : Store.ref),
    r < List.length h ->
    let st := Store.filterApps h r f in
    Store.read (fst st) r = Store.read h r /\
    snd st <> r /\
    Store.read (fst st) (snd st) = filterApps (Store.read h r) f.
Proof.
  split; [apply filterApps_idempotent|].
  split; [apply filterApps_meets|].
  split; [reflexivity|].
  intros h r Hr st. destruct (filterApps_store h r f) as ((H1 & H2) & Hold & Hnew).
  fold st in H1, H2, Hold, Hnew. repeat split.
  - now apply Hold.
  - lia.
  - exact Hnew.
Qed.

Lemma filterApps_spec_witness :
  let apps := [app_of_category "GAME"; app_of_category "TOOLS"] in
  let f := {| f_category := Some "GAME"; f_minRating := None; f_type := None;
              f_contentRating := None; f_isPaid := Some false |} in
  Store.read (fst (Store.filterApps [apps] 0 f)) 0 = apps /\
  Store.read (fst (Store.filterApps [apps] 0 f)) (snd (Store.filterApps [apps] 0 f))
  = [app_of_category "GAME"].
Proof.
  intros apps f.
  destruct (proj2 (proj2 (proj2 (filterApps_spec apps f))) [apps] 0 (le_n 1))
    as (H1 & _ & H2).
  split; [exact H1 | exact H2].
Defined.

(** C7 as stated fails: a criterion that is present but holds the empty
    string does not constrain. With [{category: ''}] a record of category
    GAME is kept, although its category is not the empty string. *)
Lemma filterApps_counterexample :
  let f := {| f_category := Some ""; f_minRating := None; f_type := None;
              f_contentRating := None; f_isPaid := None |} in
  filterApps [app_of_category "GAME"] f = [app_of_category "GAME"] /\
  filter (meets_present f) [app_of_category "GAME"] = [].
Proof. split; reflexivity. Qed.

End Filtering.

(** ** [calculateBasicStats] *)

Section BasicStatistics.
Import Js StatisticalAnalysis Stats.

Lemma missing_not_clean (values : list entry) :
  Forall is_missing values -> filter is_clean_entry values = [].
Proof.
  induction 1 as [|v l Hv _ IH]; [reflexivity|]. cbn.
  destruct v as [| |n]; cbn in *; try exact IH. now rewrite Hv.
Qed.

(** C9. For an array whose elements are all [null], [undefined] or [NaN]
    (the empty array among them), [calculateBasicStats] returns the
    statistics that are all 0 with [mode] [null]: it does not raise, and no
    field is [NaN]. The library is not called, whatever it exports. *)
Theorem calculateBasicStats_empty (math : MathJS.namespace) (values : list entry) :
  Forall is_missing values ->
  calculateBasicStats math values =
    Ok {| count := 0; mean := 0; median := 0; mode := None; min := 0; max := 0;
          std := 0; variance := 0; q1 := 0; q3 := 0; iqr := 0 |}%float /\
  has_NaN {| count := 0; mean := 0; median := 0; mode := None; min := 0; max := 0;
             std := 0; variance := 0; q1 := 0; q3 := 0; iqr := 0 |}%float = false.
Proof.
  intros H. unfold calculateBasicStats. rewrite (missing_not_clean values H).
  split; reflexivity.
Qed.

Lemma calculateBasicStats_empty_witness :
  calculateBasicStats MathJS.expected [ENull; ENum NaN; EUndefined] = Ok zero_stats /\
  calculateBasicStats MathJS.without_var [] = Ok zero_stats.
Proof.
  split.
  - apply (calculateBasicStats_empty MathJS.expected [ENull; ENum NaN; EUndefined]).
    repeat constructor.
  - apply (calculateBasicStats_empty MathJS.without_var []). constructor.
Defined.

End BasicStatistics.

(** ** [math.mode], [math.var] and [math.std] inside [calculateBasicStats] *)

Section ModeAndVariance.
Import Js StatisticalAnalysis Stats.

Lemma eq_left (v w u : number) : eq v w = true -> eq u v = eq u w.
Proof.
  intros H. destruct (eq u v) eqn:E1, (eq u w) eqn:E2; try reflexivity.
  - now rewrite (eq_trans_number u v w E1 H) in E2.
  - rewrite eq_sym_number in H. now rewrite (eq_trans_number u w v E2 H) in E1.
Qed.

Lemma frequency_eq (p : list number) (v w : number) :
  eq v w = true -> frequency p v = frequency p w.
Proof.
  intros H. unfold frequency. f_equal. apply filter_ext. intros u. now apply eq_left.
Qed.

Lemma frequency_snoc (p : list number) (v w : number) :
  frequency (p ++ [v]) w = frequency p w + (if eq v w then 1 else 0).
Proof.
  unfold frequency. rewrite filter_app, length_app. cbn [filter].
  destruct (eq v w); reflexivity.
Qed.

Lemma bump_spec (v : number) (count : list (number * nat)) :
  snd (MathJS.bump v count) = S (lookup_count count v) /\
  forall w, lookup_count (fst (MathJS.bump v count)) w =
            if eq v w then S (lookup_count count w) else lookup_count count w.
Proof.
  induction count as [|[k c] r [IH1 IH2]]; cbn.
  - split; [reflexivity|]. intros w. now destruct (eq v w).
  - destruct (eq k v) eqn:Ekv; cbn.
    + split; [reflexivity|]. intros w.
      assert (E : eq v w = eq k w).
      { rewrite (eq_sym_number v w), (eq_sym_number k w). symmetry. now apply eq_left. }
      rewrite E. now destruct (eq k w).
    + destruct (MathJS.bump v r) as [r' c'] eqn:Eb. cbn in *.
      split; [exact IH1|]. intros w. rewrite IH2.
      destruct (eq k w) eqn:Ekw; [|reflexivity].
      destruct (eq v w) eqn:Evw; [|reflexivity].
      rewrite eq_sym_number in Evw. now rewrite (eq_trans_number k w v Ekw Evw) in Ekv.
Qed.

Lemma in_snoc (p : list number) (v w : number) :
  In w (p ++ [v]) -> eq v w = false -> isNaN v = false -> In w p.
Proof.
  intros H E Hv. apply in_app_or in H as [H|[<-|[]]]; [exact H|].
  now rewrite (eq_refl_number v Hv) in E.
Qed.

Lemma mode_step_invariant (p : list number) (count : list (number * nat))
  (mode : list number) (max : nat) (v : number) :
  isNaN v = false ->
  table_of p count -> mode_invariant p mode max ->
  let '(count', mode', max') := MathJS.mode_step (count, mode, max) v in
  table_of (p ++ [v]) count' /\ mode_invariant (p ++ [v]) mode' max'.
Proof.
  intros Hv Ht (M1 & M2 & M3 & M5). unfold MathJS.mode_step.
  destruct (bump_spec v count) as [Hc Hl].
  destruct (MathJS.bump v count) as [count' c]. cbn [fst snd] in Hc, Hl.
  rewrite (Ht v) in Hc.
  assert (Ht' : table_of (p ++ [v]) count').
  { intros w. rewrite Hl, frequency_snoc, (Ht w). destruct (eq v w); lia. }
  assert (Hvv : frequency (p ++ [v]) v = c).
  { rewrite frequency_snoc, (eq_refl_number v Hv). lia. }
  assert (Hsame : forall w, eq v w = true -> frequency (p ++ [v]) w = c).
  { intros w E. now rewrite <- (frequency_eq (p ++ [v]) v w E). }
  assert (Hother : forall w, eq v w = false -> frequency (p ++ [v]) w = frequency p w).
  { intros w E. rewrite frequency_snoc, E. lia. }
  assert (Hold : forall w, eq v w = true -> frequency p w = c - 1).
  { intros w E. rewrite <- (frequency_eq p v w E). lia. }
  destruct (Nat.eqb_spec c max) as [Heq|Hne]; [|destruct (Nat.ltb_spec max c) as [Hlt|Hge]].
  - split; [exact Ht'|]. repeat split.
    + intros w. destruct (eq v w) eqn:E; [rewrite (Hsame w E) | rewrite (Hother w E)];
        [lia | apply M1].
    + apply in_app_or in H as [H|[<-|[]]]; [|apply in_or_app; right; now left].
      apply in_or_app. left. now apply M2.
    + apply in_app_or in H as [H|[<-|[]]]; [|exact (eq_trans Hvv Heq)].
      destruct (M2 v0 H) as [_ Hf]. destruct (eq v v0) eqn:E.
      * pose proof (Hold v0 E). lia.
      * now rewrite (Hother v0 E).
    + intros w Hw Hf. destruct (eq v w) eqn:E.
      * exists v. split; [apply in_or_app; right; now left | exact E].
      * rewrite (Hother w E) in Hf.
        destruct (M3 w (in_snoc p v w Hw E Hv) Hf) as (u & Hu & Eu).
        exists u. split; [apply in_or_app; now left | exact Eu].
    + right. exists v. split; [apply in_or_app; right; now left | lia].
  - split; [exact Ht'|]. repeat split.
    + intros w. destruct (eq v w) eqn:E; [rewrite (Hsame w E) | rewrite (Hother w E)];
        [lia | pose proof (M1 w); lia].
    + destruct H as [<-|[]]. apply in_or_app; right; now left.
    + destruct H as [<-|[]]. exact Hvv.
    + intros w Hw Hf. destruct (eq v w) eqn:E.
      * exists v. split; [now left | exact E].
      * rewrite (Hother w E) in Hf. pose proof (M1 w). lia.
    + right. exists v. split; [apply in_or_app; right; now left | exact Hvv].
  - split; [exact Ht'|]. repeat split.
    + intros w. destruct (eq v w) eqn:E; [rewrite (Hsame w E) | rewrite (Hother w E)];
        [lia | apply M1].
    + apply in_or_app. left. now apply M2.
    + destruct (M2 v0 H) as [_ Hf]. destruct (eq v v0) eqn:E.
      * pose proof (Hold v0 E). lia.
      * now rewrite (Hother v0 E).
    + intros w Hw Hf. destruct (eq v w) eqn:E.
      * rewrite (Hsame w E) in Hf. lia.
      * rewrite (Hother w E) in Hf.
        destruct (M3 w (in_snoc p v w Hw E Hv) Hf) as (u & Hu & Eu). eauto.
    + destruct M5 as [[-> ->]|(u & Hu & Hf)]; [lia|].
      right. exists u. split; [apply in_or_app; now left|].
      destruct (eq v u) eqn:E.
      * pose proof (Hold u E). lia.
      * now rewrite (Hother u E).
Qed.

Lemma mode_loop_invariant (l p : list number) (st : list (number * nat) * list number * nat) :
  Forall (fun v => isNaN v = false) l ->
  table_of p (fst (fst st)) /\ mode_invariant p (snd (fst st)) (snd st) ->
  let st' := fold_left MathJS.mode_step l st in
  table_of (p ++ l) (fst (fst st')) /\ mode_invariant (p ++ l) (snd (fst st')) (snd st').
Proof.
  intros Hl. revert p st. induction Hl as [|v l Hv _ IH]; intros p [[count mode] max] [Ht Hm].
  - cbn. rewrite app_nil_r. now split.
  - cbn [fold_left]. pose proof (mode_step_invariant p count mode max v Hv Ht Hm) as Hs.
    destruct (MathJS.mode_step (count, mode, max) v) as [[count' mode'] max'].
    replace (p ++ v :: l)%list with ((p ++ [v]) ++ l)%list by (now rewrite <- app_assoc).
    now apply IH.
Qed.

Lemma mode_invariant_most_frequent (p m : list number) (max : nat) :
  mode_invariant p m max ->
  (forall v, In v m -> In v p /\ most_frequent p v) /\
  (forall w, In w p -> most_frequent p w -> exists v, In v m /\ eq v w = true).
Proof.
  intros (M1 & M2 & M3 & M5). split.
  - intros v Hv. destruct (M2 v Hv) as [Hin Hf]. split; [exact Hin|].
    intros w. rewrite Hf. apply M1.
  - intros w Hw Hmost. apply (M3 w Hw).
    destruct M5 as [[-> _]|(u & _ & Hu)]; [contradiction|].
    pose proof (Hmost u). pose proof (M1 w). lia.
Qed.

Lemma no_NaN_existsb (l : list number) :
  Forall (fun v => isNaN v = false) l -> existsb isNaN l = false.
Proof. induction 1 as [|v l Hv _ IH]; [reflexivity|]. cbn. now rewrite Hv, IH. Qed.

(** [math.mode] on numbers that are not [NaN]: the values that occur most
    often, all of them. *)
Lemma mode_most_frequent (l : list number) :
  l <> [] -> Forall (fun v => isNaN v = false) l ->
  exists m, MathJS.mode l = Ok m /\
    (forall v, In v m -> In v l /\ most_frequent l v) /\
    (forall w, In w l -> most_frequent l w -> exists v, In v m /\ eq v w = true).
Proof.
  intros Hne Hl. unfold MathJS.mode. rewrite (no_NaN_existsb l Hl).
  destruct l as [|x r]; [contradiction|].
  assert (H0 : table_of [] (@nil (number * nat)) /\ mode_invariant [] [] 0).
  { split; [intros w; reflexivity|]. repeat split; try contradiction.
    - intros w. cbn. lia.
    - now left. }
  pose proof (mode_loop_invariant (x :: r) [] ([], [], 0) Hl H0) as [_ Hm].
  cbn [app] in Hm.
  destruct (fold_left MathJS.mode_step (x :: r) ([], [], 0)) as [[count m] max].
  exists m. split; [reflexivity|]. now apply (mode_invariant_most_frequent _ _ max).
Qed.

Lemma isNaN_eq (x : number) : isNaN x = true -> x = NaN.
Proof.
  rewrite isNaN_key. unfold Key.of_number. intros H.
  apply Prim2SF_inj. change (Prim2SF NaN) with S754_nan.
  destruct (Prim2SF x) as [[]|[]| |[] m e]; cbn in H; try discriminate. reflexivity.
Qed.

Lemma NaN_div (y : number) : (NaN / y)%float = NaN.
Proof.
  apply Prim2SF_inj. rewrite div_spec. change (Prim2SF NaN) with S754_nan.
  reflexivity.
Qed.

Lemma fold_left_map_add (f : number -> number) (r : list number) (a : number) :
  fold_left (fun s v => (s + f v)%float) r a = fold_left (fun s v => (s + v)%float) (map f r) a.
Proof. revert a. induction r as [|x r IH]; intros a; [reflexivity | apply IH]. Qed.

(** [math.variance] divides the squared deviations by [n - 1]. *)
Lemma variance_sample (l : list number) :
  l <> [] ->
  exists v, MathJS.variance l = Ok v /\
    (2 <= List.length l -> v = sample_variance l) /\
    (List.length l = 1 -> v = 0%float \/ v = NaN).
Proof.
  destruct l as [|x r]; [contradiction|]. intros _. unfold MathJS.variance. cbv zeta.
  set (m := (fold_left (fun s v => (s + v)%float) r x / of_nat (List.length (x :: r)))%float).
  set (d := fun v => ((v - m) * (v - m))%float).
  assert (E : fold_left (fun s v => (s + (v - m) * (v - m))%float) r ((x - m) * (x - m))%float
              = sum_list (squared_deviations (x :: r))).
  { exact (fold_left_map_add d r (d x)). }
  rewrite !E. set (T := sum_list (squared_deviations (x :: r))).
  destruct (isNaN T) eqn:HT.
  - exists T. split; [reflexivity|]. split.
    + intros _. unfold sample_variance. fold T. rewrite (isNaN_eq T HT). now rewrite NaN_div.
    + intros _. right. now apply isNaN_eq.
  - destruct (Nat.eqb_spec (List.length (x :: r)) 1) as [H1|H1].
    + exists 0%float. split; [reflexivity|]. split; [lia | now left].
    + eexists. split; [reflexivity|]. split; [reflexivity | contradiction].
Qed.


Lemma clean_numbers (values : list entry) :
  Forall (fun v => isNaN v = false) (numbers_of (filter is_clean_entry values)).
Proof.
  induction values as [|v l IH]; [constructor|]. cbn [filter].
  destruct v as [| |n]; cbn [is_clean_entry]; try exact IH.
  destruct (isNaN n) eqn:E; cbn [negb]; [exact IH|].
  cbn. constructor; assumption.
Qed.

Lemma insert_sorted_not_nil {A} (cmp : A -> A -> number) (x : A) (l : list A) :
  Lodash.insert_sorted cmp x l <> [].
Proof. destruct l as [|y r]; cbn; [|destruct (gt _ _)]; discriminate. Qed.

Lemma sort_not_nil {A} (cmp : A -> A -> number) (l : list A) :
  l <> [] -> Lodash.sort cmp l <> [].
Proof. destruct l; [contradiction|]. intros _. apply insert_sorted_not_nil. Qed.

Lemma median_returns (l : list number) : l <> [] -> exists v, MathJS.median l = Ok v.
Proof.
  destruct l; [contradiction|]. intros _. unfold MathJS.median.
  destruct (Nat.even _); eauto.
Qed.

Lemma quantileSeq_returns (l : list number) (p : number) :
  l <> [] -> exists v, MathJS.quantileSeq l p = Ok v.
Proof.
  destruct l; [contradiction|]. intros _. unfold MathJS.quantileSeq. cbv zeta.
  destruct (is_zero _); eauto.
Qed.

(** Up to the call of [math.var] the function does not raise. *)
Lemma calculateBasicStats_calls_var (math : MathJS.namespace) (values : list entry) :
  let clean := numbers_of (filter is_clean_entry values) in
  clean <> [] ->
  exists md m sd a b,
    MathJS.median clean = Ok md /\
    MathJS.mode clean = Ok m /\
    MathJS.std clean = Ok sd /\
    MathJS.quantileSeq (Lodash.sort MathJS.ascending clean) 0.25%float = Ok a /\
    MathJS.quantileSeq (Lodash.sort MathJS.ascending clean) 0.75%float = Ok b /\
    calculateBasicStats math values =
      (v <- MathJS.call_var math clean ;;
       Ok {| count := of_nat (List.length clean);
             mean := Lodash.mean clean;
             median := md;
             mode := Some m;
             min := Lodash.Math_min clean;
             max := Lodash.Math_max clean;
             std := sd;
             variance := v;
             q1 := a;
             q3 := b;
             iqr := (b - a)%float |}).
Proof.
  intros clean Hne. unfold calculateBasicStats. fold clean.
  destruct (Nat.eqb_spec (List.length clean) 0) as [H0|_].
  { destruct clean; [contradiction | discriminate]. }
  destruct (median_returns clean Hne) as [md Emd].
  destruct (mode_most_frequent clean Hne (clean_numbers values)) as (m & Em & _).
  destruct (variance_sample clean Hne) as (v & Ev & _).
  assert (Esd : MathJS.std clean = Ok (sqrt v)) by (unfold MathJS.std; now rewrite Ev).
  pose proof (sort_not_nil MathJS.ascending clean Hne) as Hs.
  destruct (quantileSeq_returns _ 0.25%float Hs) as [a Ea].
  destruct (quantileSeq_returns _ 0.75%float Hs) as [b Eb].
  exists md, m, (sqrt v), a, b. rewrite Emd, Em, Esd, Ea, Eb. cbn [bind].
  repeat split.
Qed.




(** With a library that does not export [var] the same call raises, for
    every array whose cleaned set is not empty. *)
Lemma calculateBasicStats_without_var (math : MathJS.namespace) (values : list entry) :
  MathJS.var math = None ->
  numbers_of (filter is_clean_entry values) <> [] ->
  calculateBasicStats math values = Throw (TypeError "math.var is not a function").
Proof.
  intros Hvar Hne.
  destruct (calculateBasicStats_calls_var math values Hne)
    as (md & m & sd & a & b & _ & _ & _ & _ & _ & E).
  rewrite E. unfold MathJS.call_var. now rewrite Hvar.
Qed.

End ModeAndVariance.

(** ** [calculateCorrelation] *)

Section Correlation.
Import Js StatisticalAnalysis Stats.






Lemma guarded_pearson_not_NaN (xs ys : list number) : isNaN (guarded_pearson xs ys) = false.
Proof.
  unfold guarded_pearson. destruct (lt _ _); [reflexivity|].
  destruct (isNaN (pearson xs ys)) eqn:E; [reflexivity | exact E].
Qed.






End Correlation.

(** ** [removeDuplicateApps] *)

Section Grouping.
Import Js Lodash Dedup.
Context {A : Type} (key : A -> string).

Lemma find_group_add (k k' : string) (x : A) (o : object (list A)) :
  find_group k' (add_to_group k x o) =
  if String.eqb k k' then
    Some (match find_group k o with Some xs => (xs ++ [x])%list | None => [x] end)
  else find_group k' o.
Proof.
  induction o as [|[k0 g] r IH]; cbn [add_to_group find_group].
  - destruct (String.eqb k k'); reflexivity.
  - destruct (String.eqb_spec k0 k) as [->|N]; cbn [find_group].
    + destruct (String.eqb k k'); reflexivity.
    + rewrite IH. destruct (String.eqb_spec k k') as [<-|_]; [|reflexivity].
      destruct (String.eqb_spec k0 k) as [E|_]; [contradiction | reflexivity].
Qed.

Lemma keys_add (k : string) (x : A) (o : object (list A)) :
  map fst (add_to_group k x o) =
  match find_group k o with
  | Some _ => map fst o
  | None => (map fst o ++ [k])%list
  end.
Proof.
  induction o as [|[k0 g] r IH]; cbn [add_to_group find_group map fst]; [reflexivity|].
  destruct (String.eqb_spec k0 k) as [->|N]; [reflexivity|].
  cbn [map fst]. rewrite IH. destruct (find_group k r); reflexivity.
Qed.

Lemma find_group_None (k : string) (o : object (list A)) :
  find_group k o = None -> ~ In k (map fst o).
Proof.
  induction o as [|[k0 g] r IH]; cbn; [tauto|].
  destruct (String.eqb_spec k0 k) as [->|N]; [discriminate|].
  intros H [E|E]; [contradiction | now apply IH].
Qed.

Lemma find_group_In (k : string) (g : list A) (o : object (list A)) :
  NoDup (map fst o) -> In (k, g) o -> find_group k o = Some g.
Proof.
  induction o as [|[k0 g0] r IH]; cbn; [tauto|]. intros Hnd [E|E].
  - injection E as -> ->. now rewrite String.eqb_refl.
  - inversion Hnd as [|? ? Hn Hr]; subst.
    destruct (String.eqb_spec k0 k) as [->|N]; [|now apply IH].
    exfalso. apply Hn. now apply (in_map fst) in E.
Qed.

Lemma group_of_snoc (l : list A) (x : A) (k : string) :
  group_of key (l ++ [x]) k =
  if String.eqb (key x) k then
    Some (match group_of key l k with Some xs => (xs ++ [x])%list | None => [x] end)
  else group_of key l k.
Proof.
  unfold group_of. rewrite filter_app. cbn [filter].
  destruct (String.eqb (key x) k); [|now rewrite app_nil_r].
  destruct (filter _ l) as [|y r]; reflexivity.
Qed.

(** The object that [groupBy] builds: one property per key, in the order
    of the first occurrences, and the group of a key is the elements of that
    key in their order. *)
Lemma groupBy_spec (l : list A) :
  NoDup (map fst (groupBy key l)) /\
  forall k, find_group k (groupBy key l) = group_of key l k.
Proof.
  unfold groupBy.
  assert (H : forall l p o,
    NoDup (map fst o) /\ (forall k, find_group k o = group_of key p k) ->
    NoDup (map fst (fold_left (fun o x => add_to_group (key x) x o) l o)) /\
    forall k, find_group k (fold_left (fun o x => add_to_group (key x) x o) l o)
              = group_of key (p ++ l) k).
  { clear l. induction l as [|x l IH]; intros p o [Hnd Hf].
    - cbn. rewrite app_nil_r. now split.
    - cbn [fold_left]. replace (p ++ x :: l)%list with ((p ++ [x]) ++ l)%list
        by (now rewrite <- app_assoc).
      apply IH. split.
      + rewrite keys_add. destruct (find_group (key x) o) eqn:E; [exact Hnd|].
        apply NoDup_app; [exact Hnd | repeat constructor; intros [] |].
        intros k Hk [<-|[]]. now apply (find_group_None _ _ E).
      + intros k. rewrite find_group_add, group_of_snoc, !Hf.
        destruct (String.eqb_spec (key x) k) as [<-|_]; reflexivity. }
  apply (H l [] []). split; [constructor | reflexivity].
Qed.

End Grouping.

Section Enumeration.
Import Js Lodash.
Context {A : Type}.

Lemma insert_index_perm (i : Z) (p : string * A) (l : list (Z * (string * A))) :
  Permutation (map snd (insert_index i p l)) (p :: map snd l).
Proof.
  induction l as [|[j q] r IH]; cbn [insert_index]; [reflexivity|].
  destruct (i <? j)%Z; cbn [map snd]; [reflexivity|].
  rewrite IH. apply perm_swap.
Qed.

(** The enumeration of the properties is a rearrangement of the object. *)
Lemma own_properties_perm (o : object A) : Permutation (own_properties o) o.
Proof.
  unfold own_properties, named. induction o as [|p r IH]; [reflexivity|].
  cbn [indexed filter]. destruct (array_index (fst p)).
  - rewrite insert_index_perm. cbn [app]. now apply perm_skip.
  - rewrite <- Permutation_middle. now apply perm_skip.
Qed.

End Enumeration.

Section Extremum.
Import Js Lodash Dedup.
Context {A : Type} (f : A -> number).

Lemma extremum_step_first (p : list A) (b x : A) :
  isNaN (f b) = false -> isNaN (f x) = false ->
  first_greatest f p b ->
  exists b', extremum_step f (Some (f b, b)) x = Some (f b', b') /\
             isNaN (f b') = false /\ first_greatest f (p ++ [x]) b'.
Proof.
  intros Hb Hx (l1 & l2 & -> & H1 & H2). unfold extremum_step.
  destruct (gt (f x) (f b)) eqn:E.
  - exists x. split; [reflexivity|]. split; [exact Hx|].
    exists (l1 ++ b :: l2)%list, []. split; [reflexivity|]. split; [|intros a []].
    intros a Ha. apply in_app_or in Ha as [Ha|[<-|Ha]].
    + apply (lt_le_trans _ (f b)); [now apply H1 | now apply gt_le].
    + exact E.
    + apply (le_lt_trans _ (f b)); [now apply H2 | exact E].
  - exists b. split; [reflexivity|]. split; [exact Hb|].
    exists l1, (l2 ++ [x])%list. split; [now rewrite <- app_assoc|]. split; [exact H1|].
    intros a Ha. apply in_app_or in Ha as [Ha|[<-|[]]]; [now apply H2|].
    now apply not_gt_le.
Qed.

Lemma extremum_loop_first (l p : list A) (b : A) :
  Forall (fun a => isNaN (f a) = false) l ->
  isNaN (f b) = false -> first_greatest f p b ->
  exists b', fold_left (extremum_step f) l (Some (f b, b)) = Some (f b', b') /\
             first_greatest f (p ++ l) b'.
Proof.
  intros Hl. revert p b. induction Hl as [|x l Hx _ IH]; intros p b Hb Hp.
  - exists b. cbn. rewrite app_nil_r. now split.
  - cbn [fold_left].
    destruct (extremum_step_first p b x Hb Hx Hp) as (b' & -> & Hb' & Hp').
    replace (p ++ x :: l)%list with ((p ++ [x]) ++ l)%list by (now rewrite <- app_assoc).
    now apply IH.
Qed.

(** [maxBy] answers the first of the elements with the greatest criterion. *)
Lemma maxBy_first (l : list A) :
  l <> [] -> Forall (fun a => isNaN (f a) = false) l ->
  exists b, maxBy f l = Some b /\ first_greatest f l b.
Proof.
  destruct l as [|x r]; [contradiction|]. intros _ Hl.
  inversion Hl as [|? ? Hx Hr]; subst. unfold maxBy. cbn [fold_left extremum_step].
  rewrite Hx.
  destruct (extremum_loop_first r [x] x Hr Hx) as (b & -> & Hb).
  - exists [], []. split; [reflexivity|]. split; intros a [].
  - exists b. split; [reflexivity | exact Hb].
Qed.

End Extremum.

Section Duplicates.
Import Js Lodash DataProcessor Dedup.

Lemma filter_split {A} (p : A -> bool) (l l1' l2' : list A) (b : A) :
  filter p l = (l1' ++ b :: l2')%list ->
  exists l1 l2, l = (l1 ++ b :: l2)%list /\ filter p l1 = l1' /\ filter p l2 = l2'.
Proof.
  revert l1'. induction l as [|x r IH]; intros l1'; cbn [filter].
  - destruct l1'; discriminate.
  - destruct (p x) eqn:Hx.
    + destruct l1' as [|y t]; cbn [app]; intros [= -> E].
      * exists [], r. now split.
      * destruct (IH t E) as (l1 & l2 & -> & E1 & E2).
        exists (y :: l1), l2. cbn [filter app]. rewrite Hx, E1. now split.
    + intros E. destruct (IH l1' E) as (l1 & l2 & -> & E1 & E2).
      exists (x :: l1), l2. cbn [filter app]. rewrite Hx. now split.
Qed.

Lemma find_group_Some {A} (k : string) (g : list A) (o : object (list A)) :
  find_group k o = Some g -> In (k, g) o.
Proof.
  induction o as [|[k0 g0] r IH]; cbn; [discriminate|].
  destruct (String.eqb_spec k0 k) as [->|N]; [intros [= ->]; now left | auto].
Qed.

Lemma group_of_Some {A} (key : A -> string) (l g : list A) (k : string) :
  group_of key l k = Some g ->
  g <> [] /\ g = filter (fun a => String.eqb (key a) k) l.
Proof.
  unfold group_of. destruct (filter _ l) as [|x r]; [discriminate|].
  intros [= <-]. split; [discriminate | reflexivity].
Qed.

(** What [keep_most_reviewed] keeps of the group of a key. *)
Lemma keep_of_group (apps g : list App) (k : string) :
  Forall (fun a => isNaN (reviews a) = false) apps ->
  group_of name_key apps k = Some g ->
  exists b, keep_most_reviewed g = Some b /\ name_key b = k /\ most_reviewed_first apps b.
Proof.
  intros Hr Hg. destruct (group_of_Some name_key apps g k Hg) as [Hne Eg].
  assert (Hin : forall a, In a g -> In a apps /\ name_key a = k).
  { intros a Ha. rewrite Eg in Ha. apply filter_In in Ha as [Ha E].
    split; [exact Ha | now apply String.eqb_eq]. }
  assert (Hg' : Forall (fun a => isNaN (reviews a) = false) g).
  { apply Forall_forall. intros a Ha. rewrite Forall_forall in Hr. now apply Hr, Hin. }
  assert (Hb : exists b, keep_most_reviewed g = Some b /\ first_greatest reviews g b).
  { destruct g as [|a [|a' r]]; [contradiction | | now apply maxBy_first].
    exists a. split; [reflexivity|]. exists [], []. split; [reflexivity|]. split; intros ? []. }
  destruct Hb as (b & Hk & l1' & l2' & E & H1 & H2).
  assert (Hbk : name_key b = k).
  { apply Hin. rewrite E. apply in_or_app. right. now left. }
  exists b. split; [exact Hk|]. split; [exact Hbk|].
  rewrite E in Eg. symmetry in Eg.
  destruct (filter_split _ apps l1' l2' b Eg) as (l1 & l2 & -> & E1 & E2).
  exists l1, l2. split; [reflexivity|]. split; intros a Ha Hn.
  - apply H1. rewrite <- E1. apply filter_In. split; [exact Ha|].
    apply String.eqb_eq. congruence.
  - apply H2. rewrite <- E2. apply filter_In. split; [exact Ha|].
    apply String.eqb_eq. congruence.
Qed.

Lemma keep_of_groups (apps : list App) (ps : object (list App)) :
  Forall (fun a => isNaN (reviews a) = false) apps ->
  (forall k g, In (k, g) ps -> group_of name_key apps k = Some g) ->
  exists kept,
    map keep_most_reviewed (map snd ps) = map Some kept /\
    map name_key kept = map fst ps /\
    forall b, In b kept -> most_reviewed_first apps b.
Proof.
  intros Hr. induction ps as [|[k g] r IH]; intros H.
  - exists []. repeat split. intros b [].
  - destruct IH as (kept & E1 & E2 & E3); [intros; apply H; now right|].
    destruct (keep_of_group apps g k Hr (H k g (or_introl eq_refl))) as (b & Eb & Ek & Hb).
    exists (b :: kept). cbn [map snd fst]. rewrite Eb, E1, Ek, E2.
    repeat split. intros b' [<-|Hb']; [exact Hb | now apply E3].
Qed.

(** C2. For every list of app records whose review counts are numbers
    (not [NaN], as [processAppsData] leaves them), [removeDuplicateApps]
    returns records only, one per name: the names of the result are
    distinct, every name of the input is among them, and each record
    returned stands in the input before every record of its name that has
    as many reviews, while none of its name has more. *)
Theorem removeDuplicateApps_spec (apps : list App) :
  Forall (fun a => isNaN (reviews a) = false) apps ->
  exists kept,
    removeDuplicateApps apps = map Some kept /\
    NoDup (map name_key kept) /\
    (forall a, In a apps -> In (name_key a) (map name_key kept)) /\
    (forall b, In b kept -> most_reviewed_first apps b).
Proof.
  intros Hr. destruct (groupBy_spec name_key apps) as [Hnd Hfind].
  set (o := groupBy name_key apps) in *.
  pose proof (own_properties_perm o) as Hperm.
  destruct (keep_of_groups apps (own_properties o) Hr) as (kept & E1 & E2 & E3).
  { intros k g Hin. rewrite <- Hfind. apply find_group_In; [exact Hnd|].
    now apply (Permutation_in _ Hperm). }
  exists kept. split; [exact E1|]. rewrite E2. split; [|split; [|exact E3]].
  - apply (Permutation_NoDup (l := map fst o)); [|exact Hnd].
    symmetry. now apply Permutation_map.
  - intros a Ha.
    destruct (group_of name_key apps (name_key a)) as [g|] eqn:Eg.
    + rewrite <- Hfind in Eg. apply find_group_Some in Eg.
      apply (Permutation_in _ (Permutation_sym (Permutation_map fst Hperm))).
      now apply (in_map fst) in Eg.
    + exfalso. unfold group_of in Eg.
      assert (Hin : In a (filter (fun x => String.eqb (name_key x) (name_key a)) apps)).
      { apply filter_In. split; [exact Ha | apply String.eqb_refl]. }
      destruct (filter _ apps); [contradiction | discriminate].
Qed.

Lemma removeDuplicateApps_spec_witness :
  exists kept,
    removeDuplicateApps
      [app_with "X" 50 "GAME"; app_with "Y" 10 "TOOLS"; app_with "X" 100 "GAME"]%float
    = map Some kept /\
    NoDup (map name_key kept).
Proof.
  destruct (removeDuplicateApps_spec
              [app_with "X" 50 "GAME"; app_with "Y" 10 "TOOLS"; app_with "X" 100 "GAME"]%float)
    as (kept & E & Hn & _).
  - repeat constructor.
  - exists kept. split; assumption.
Defined.

(** The record with more reviews is kept; of two records with as many
    reviews, the first; and a name that is an array index comes first. *)
Example removeDuplicateApps_examples :
  removeDuplicateApps
    [app_with "X" 50 "GAME"; app_with "Y" 10 "TOOLS"; app_with "X" 100 "GAME"]%float
  = [Some (app_with "X" 100 "GAME"); Some (app_with "Y" 10 "TOOLS")]%float /\
  removeDuplicateApps [app_with "X" 5 "first"; app_with "X" 5 "second"]%float
  = [Some (app_with "X" 5 "first")]%float /\
  removeDuplicateApps [app_with "X" 5 "GAME"; app_with "2048" 7 "GAME"]%float
  = [Some (app_with "2048" 7 "GAME"); Some (app_with "X" 5 "GAME")]%float.
Proof. repeat split; vm_compute; reflexivity. Qed.

Lemma mapM_Forall {A B} (Q : B -> Prop) (f : A -> result B) (l : list A) (l' : list B) :
  (forall x y, f x = Ok y -> Q y) -> mapM f l = Ok l' -> Forall Q l'.
Proof.
  intros Hf. revert l'. induction l as [|x r IH]; cbn [mapM]; intros l'.
  - intros [= <-]. constructor.
  - destruct (f x) as [y|e] eqn:Ey; cbn [bind]; [|discriminate].
    destruct (mapM f r) as [ys|e]; cbn [bind]; [|discriminate].
    intros [= <-]. constructor; [now apply (Hf x) | now apply IH].
Qed.

Lemma normalizeApp_reviews (row : data) (a : App) :
  normalizeApp row = Ok a -> isNaN (reviews a) = false.
Proof.
  unfold normalizeApp. destruct (get row "App") as [v|e] eqn:E; [|discriminate].
  assert (G : forall k, exists v', get row k = Ok v').
  { intros k. destruct row as [[]|fields|items]; cbn in *; try discriminate; eauto. }
  repeat match goal with
  | |- context [get row ?k] =>
      let v' := fresh "v" in let E' := fresh "E" in
      destruct (G k) as [v' E']; rewrite E'; clear E'; cbn [bind]
  | |- context [bind (opt_trim ?x) _] =>
      destruct (opt_trim x); cbn [bind]; [|discriminate]
  end.
  intros [= <-]. apply or_num_not_NaN.
Qed.

(** The records that [processAppsData] returns have review counts that
    are numbers. *)
Lemma processAppsData_reviews (rawData : data) (apps : list App) :
  processAppsData rawData = Ok apps ->
  Forall (fun a => isNaN (reviews a) = false) apps.
Proof.
  destruct rawData as [v|fields|rows]; cbn [processAppsData]; try discriminate.
  destruct (filterM has_critical_data rows) as [kept|e]; cbn [bind]; [|discriminate].
  destruct (mapM normalizeApp kept) as [l|e] eqn:E; cbn [bind]; [|discriminate].
  intros [= <-]. apply Forall_forall. intros a Ha. apply filter_In in Ha as [Ha _].
  pose proof (mapM_Forall _ normalizeApp kept l normalizeApp_reviews E) as H.
  rewrite Forall_forall in H. now apply H.
Qed.

End Duplicates.

(** ** [processAppsData] and [processReviewsData] *)

Section RawRows.
Import Js DataProcessor Rows.

Lemma processAppsData_not_array (d : data) :
  isArray d = false ->
  processAppsData d = Throw (Error "Invalid data format: expected array").
Proof. destruct d; cbn; [reflexivity | reflexivity | discriminate]. Qed.

Lemma processReviewsData_not_array (d : data) :
  isArray d = false ->
  processReviewsData d = Throw (Error "Invalid data format: expected array").
Proof. destruct d; cbn; [reflexivity | reflexivity | discriminate]. Qed.

Lemma filterM_ok {A} (P : A -> Prop) (f : A -> result bool) (l : list A) :
  (forall x, P x -> exists b, f x = Ok b) ->
  Forall P l -> exists l', filterM f l = Ok l' /\ Forall P l'.
Proof.
  intros Hf. induction 1 as [|x l Hx _ (l' & E & Hl')].
  - exists []. split; [reflexivity | constructor].
  - destruct (Hf x Hx) as [b Eb]. cbn. rewrite Eb, E. cbn.
    exists (if b then x :: l' else l'). split; [reflexivity|].
    destruct b; [constructor|]; assumption.
Qed.

Lemma mapM_ok {A B} (P : A -> Prop) (f : A -> result B) (l : list A) :
  (forall x, P x -> exists y, f x = Ok y) ->
  Forall P l -> exists l', mapM f l = Ok l'.
Proof.
  intros Hf. induction 1 as [|x l Hx _ (l' & E)].
  - now exists [].
  - destruct (Hf x Hx) as [y Ey]. cbn. rewrite Ey, E. cbn. now exists (y :: l').
Qed.

Lemma lookup_text (k : string) (fields : list (string * value)) :
  Forall (fun p => text_cell (snd p)) fields -> text_cell (lookup k fields).
Proof.
  induction 1 as [|[k' v] l Hv _ IH]; cbn; [exact I|].
  destruct (String.eqb k' k); assumption.
Qed.

Lemma opt_trim_text (v : value) : text_cell v -> exists s, opt_trim v = Ok s.
Proof. destruct v; cbn; try contradiction; eauto. Qed.

Lemma opt_lower_text (v : value) : text_cell v -> exists s, opt_lower v = Ok s.
Proof. destruct v; cbn; try contradiction; eauto. Qed.

Ltac trim_cells H :=
  repeat match goal with
  | |- context [opt_trim (lookup ?k ?fields)] =>
      let s := fresh "s" in let E := fresh "E" in
      destruct (opt_trim_text (lookup k fields) (lookup_text k fields H)) as [s E];
      rewrite E; cbn [bind]
  | |- context [opt_lower (lookup ?k ?fields)] =>
      let s := fresh "s" in let E := fresh "E" in
      destruct (opt_lower_text (lookup k fields) (lookup_text k fields H)) as [s E];
      rewrite E; cbn [bind]
  end.

Lemma normalizeApp_text (row : data) : text_row row -> exists a, normalizeApp row = Ok a.
Proof.
  destruct row as [v|fields|items]; cbn [text_row]; try contradiction. intros H.
  unfold normalizeApp. cbn [get bind]. trim_cells H. eauto.
Qed.

Lemma normalizeReview_text (row : data) : text_row row -> exists r, normalizeReview row = Ok r.
Proof.
  destruct row as [v|fields|items]; cbn [text_row]; try contradiction. intros H.
  unfold normalizeReview. cbn [get bind]. trim_cells H. eauto.
Qed.

Lemma has_critical_data_text (row : data) : text_row row -> exists b, has_critical_data row = Ok b.
Proof.
  destruct row as [v|fields|items]; cbn [text_row]; try contradiction. intros _.
  unfold has_critical_data. cbn [get bind]. destruct (truthy _); eauto.
Qed.

Lemma has_sentiment_text (row : data) : text_row row -> exists b, has_sentiment row = Ok b.
Proof.
  destruct row as [v|fields|items]; cbn [text_row]; try contradiction. intros _.
  unfold has_sentiment. cbn [get bind]. repeat destruct (truthy _); eauto.
Qed.

(** Where the second half of C10 holds: an array of rows whose cells hold
    text or nothing is processed without an exception. *)
Lemma process_text_rows (rows : list data) :
  Forall text_row rows ->
  (exists apps, processAppsData (Arr rows) = Ok apps) /\
  (exists reviews, processReviewsData (Arr rows) = Ok reviews).
Proof.
  intros H. split; cbn [processAppsData processReviewsData].
  - destruct (filterM_ok text_row has_critical_data rows has_critical_data_text H)
      as (kept & -> & Hkept). cbn [bind].
    destruct (mapM_ok text_row normalizeApp kept normalizeApp_text Hkept) as (apps & ->).
    cbn [bind]. eauto.
  - destruct (filterM_ok text_row has_sentiment rows has_sentiment_text H)
      as (kept & -> & Hkept). cbn [bind].
    now apply (mapM_ok text_row normalizeReview kept normalizeReview_text).
Qed.

(** C10 fails on the program. The loader of the repository parses the CSV
    with dynamic typing, so a cell such as the version [1.5] or a review
    that is the text [10] reaches the functions as a number; the optional
    chaining guards [undefined] and [null] only, and calling [trim] on the
    number raises a [TypeError]. An input that is not an array raises the
    documented error. *)
Theorem process_numeric_cell_raises :
  processAppsData
    (Arr [Obj [("App", VStr "X"); ("Category", VStr "GAME"); ("Current Ver", VNum 1.5%float)]])
  = Throw (TypeError "trim is not a function") /\
  processReviewsData
    (Arr [Obj [("App", VStr "X"); ("Sentiment", VStr "Positive");
               ("Translated_Review", VNum 10%float)]])
  = Throw (TypeError "trim is not a function") /\
  processAppsData (Prim VNull) = Throw (Error "Invalid data format: expected array") /\
  processReviewsData (Obj []) = Throw (Error "Invalid data format: expected array").
Proof. repeat split; vm_compute; reflexivity. Qed.

End RawRows.

(** ** The percentages of [utils/analytics.js] on empty input *)

Section EmptyInput.
Import Js DataProcessor StatisticalAnalysis Analytics.

Lemma unrated_below (r : number) (t : number) :
  truthy_num r = false -> lt 0%float t = true -> ge r t = false.
Proof.
  unfold truthy_num. rewrite negb_false_iff, orb_true_iff.
  order_rewrite. key_of r; key_of t; key_consts; order_props; try discriminate.
  - cbn [Key.lift Key.ltb Key.eqb]. intros [H|H]; [discriminate|]. intros.
    split_comparisons.
  - reflexivity.
Qed.

Lemma unrated_rating_value (a : App) :
  rated a = false -> ge (rating_value a) 4%float = false.
Proof.
  unfold rated, rating_value. destruct (rating a) as [r|]; cbn.
  - intros H. now apply unrated_below.
  - reflexivity.
Qed.

(** Without a rated record the share of the highly rated ones is 0 / 0. *)
Lemma generateRatingAnalytics_unrated (math : MathJS.namespace) (apps : list App) :
  Forall (fun a => rated a = false) apps ->
  exists r, generateRatingAnalytics math apps = Ok r /\ highRatedPercentage r = NaN.
Proof.
  intros H.
  assert (E2 : filter (fun a => ge (rating_value a) 4%float) apps = []).
  { induction H as [|a l Ha _ IH]; [reflexivity|]. cbn [filter].
    rewrite (unrated_rating_value a Ha). exact IH. }
  assert (E1 : filter rated apps = []).
  { clear E2. induction H as [|a l Ha _ IH]; [reflexivity|]. cbn [filter]. rewrite Ha. exact IH. }
  unfold generateRatingAnalytics, ratings_of. rewrite E1, E2. cbn [map].
  eexists. split; reflexivity.
Qed.

(** C1 fails on the program. On an empty list every percentage is
    [0 / 0 * 100], which is [NaN], and nothing replaces it by 0 (the mean
    rating next to it is guarded by [|| 0]). The functions do return,
    whatever the library exports. *)
Theorem empty_input_percentages (math : MathJS.namespace) :
  ratingsPercentage (generateOverviewAnalytics []) = NaN /\
  paidAppsPercentage (generateOverviewAnalytics []) = NaN /\
  popularAppsPercentage (generateOverviewAnalytics []) = NaN /\
  avgRating (generateOverviewAnalytics []) = 0%float /\
  (exists s, generateSentimentAnalytics math [] = Ok s /\
             sentimentPercentages s = {| positive := NaN; negative := NaN; neutral := NaN |}) /\
  (exists r, generateRatingAnalytics math [] = Ok r /\ highRatedPercentage r = NaN).
Proof.
  repeat split; try (vm_compute; reflexivity).
  - eexists. split; vm_compute; reflexivity.
  - apply generateRatingAnalytics_unrated. constructor.
Qed.

End EmptyInput.
